(** * The SignalR C++ client connection core ([connection_impl.cpp])

    A shallow embedding of [signalr::connection_impl] and the properties of
    its state machine.

    The class drives asynchronous work through pplx tasks.  The embedding
    threads an explicit [world] through every member function: the fields of
    the connection object, the shared states of the cancellation token
    sources and task completion events that lambdas capture by value, the
    log sink, the calls issued to the collaborators (negotiation, transport)
    and the state of the consumer that the two user callbacks act on.

    Scope of the model.
    - The connection object outlives the operations: [weak_from_this().lock()]
      succeeds, so the "connection no longer exists" early exits are not
      taken.
    - [_ASSERTE] is a debug-only check and compiles to nothing.
    - Collaborators raise exceptions derived from [std::exception]; user
      callbacks may throw anything.
    - Another thread interferes with an in-flight [start] by calling
      [shutdown], whose effect before it blocks on the start-completed
      event is to trip [m_disconnect_cts]; the [start_environment] says at
      which points that happens. The operations of [perform] run one after
      another. [start_during_cleanup] is the one schedule in which a
      second thread calls [start] between two continuations of the
      first. *)

From Stdlib Require Import ZArith String List Bool Lia.
From stdpp Require Import base option list gmap strings.

Set Implicit Arguments.
Set Maximal Implicit Insertion.
Local Open Scope string_scope.

(** ** Values *)

(** [utility::string_t] *)
Abbreviation string_t := string (only parsing).

(** [connection_state.h] *)
Inductive connection_state :=
| connecting
| connected
| disconnecting
| disconnected.

#[global] Instance connection_state_eq_dec : EqDecision connection_state.
Proof. solve_decision. Defined.

(** The levels of [trace_level.h] that this file logs at. *)
Inductive trace_level :=
| messages
| state_changes
| errors
| info.

(** Exceptions derived from [std::exception]. *)
Inductive exn :=
| signalr_exception (message : string_t)
| task_canceled (message : string_t)
| std_exception (message : string_t).

(** [e.what()] *)
Definition what (e : exn) : string_t :=
  match e with
  | signalr_exception m => m
  | task_canceled m => m
  | std_exception m => m
  end.

(** [dynamic_cast<const pplx::task_canceled*>(&e)] is not null. *)
Definition is_task_canceled (e : exn) : bool :=
  match e with
  | task_canceled _ => true
  | _ => false
  end.

(** Passing [const std::exception& e] by value, as
    [connect_request_tce.set_exception(e)] does in the error callback,
    copies the [std::exception] base only. *)
Definition slice (e : exn) : exn := std_exception (what e).

(** What a user callback may throw: caught by
    [catch (const std::exception&)] or only by [catch (...)]. *)
Inductive thrown :=
| thrown_std (e : exn)
| thrown_unknown.

(** The state of a [pplx::task<A>] once the model has run it as far as it
    goes. A canceled task rethrows [pplx::task_canceled] from [get()], and
    is represented as faulted with that exception. *)
Inductive task_result (A : Type) :=
| completed (a : A)
| faulted (e : exn)
| pending.
Arguments faulted {A} e.
Arguments pending {A}.

Definition canceled {A} : task_result A := faulted (task_canceled "").

(** How a call that may block or dereference a null pointer ends. *)
Inductive outcome (A : Type) :=
| returns (a : A)
| never_returns
| null_dereference.
Arguments never_returns {A}.
Arguments null_dereference {A}.

(** How a [pplx::task_completion_event<void>] was completed: by [set()] or
    by [set_exception(e)]. *)
Inductive completion :=
| set_value
| set_exn (e : exn).

(** [negotiation_response.h] *)
Record available_transport := {
  transport_name : string_t;          (* field [transport] *)
  transfer_formats : list string_t
}.

Module response.
Record negotiation_response := {
  connectionId : string_t;
  availableTransports : list available_transport;
  url : string_t;
  accessToken : string_t;
  error : string_t
}.
End response.
Import response.

(** Modelled from the spec: [signalr_client_config.h] is not part of the
    sources; the spec describes the HTTP headers of the client
    configuration as a mapping from header name to value. *)
Record signalr_client_config := {
  http_headers : gmap string string
}.

Definition get_http_headers (c : signalr_client_config) : gmap string string :=
  http_headers c.

Definition set_http_headers (headers : gmap string string)
    (c : signalr_client_config) : signalr_client_config :=
  {| http_headers := headers |}.

(** [pplx::cancellation_token_source] and [pplx::task_completion_event<void>]
    are handles to a shared state; copies made by a lambda capture refer to
    the same state. The handle is the index of the state in the [world]. *)
Abbreviation cancellation_token_source := nat (only parsing).
Abbreviation task_completion_event := nat (only parsing).

(** A transport made by [transport_factory::create_transport]. Its two
    callbacks are the closures built in [start_transport]; the record holds
    what they captured by value. *)
Record transport := {
  disconnect_cts : cancellation_token_source;
  connect_request_tce : task_completion_event
}.

Inductive transport_type :=
| websockets.

Inductive transport_call :=
| call_connect (connect_url : string_t)
| call_send (data : string_t)
| call_disconnect.

(** What [connection_impl.cpp] takes from files that are not part of the
    sources: the constant of [constants.h] and the helper of
    [url_builder.h]. *)
Record externals := {
  MAX_NEGOTIATE_REDIRECTS : Z;
  build_connect : string_t -> transport_type -> string_t -> string_t
}.

Section Model.

Variable U : Type.

(** ** The connection object and the world around it *)

Record connection_impl := {
  m_base_url : string_t;
  m_connection_state : connection_state;
  m_transport : option transport;
  m_signalr_client_config : signalr_client_config;
  m_message_received : string_t -> U -> U * option thrown;
  m_disconnected : U -> U * option thrown;
  m_disconnect_cts : cancellation_token_source;
  m_start_completed_event : bool;
  m_connection_id : string_t;
  m_message_id : string_t;
  m_groups_token : string_t
}.

Record world := {
  connection : connection_impl;
  (* shared state of every cancellation token source: [true] once canceled *)
  cts_heap : list bool;
  (* shared state of every task completion event: [None] until completed *)
  tce_heap : list (option completion);
  (* entries passed to [logger::log], oldest first *)
  log_writer : list (trace_level * string_t);
  (* calls to [request_sender::negotiate]: url and configuration *)
  negotiate_calls : list (string_t * signalr_client_config);
  (* calls on transport objects *)
  transport_calls : list (transport * transport_call);
  (* the consumer's own state, touched only by the two callbacks *)
  user : U
}.

Definition with_connection (f : connection_impl -> connection_impl) (w : world) : world :=
  {| connection := f (connection w); cts_heap := cts_heap w; tce_heap := tce_heap w;
     log_writer := log_writer w; negotiate_calls := negotiate_calls w;
     transport_calls := transport_calls w; user := user w |}.

Definition with_cts_heap (h : list bool) (w : world) : world :=
  {| connection := connection w; cts_heap := h; tce_heap := tce_heap w;
     log_writer := log_writer w; negotiate_calls := negotiate_calls w;
     transport_calls := transport_calls w; user := user w |}.

Definition with_tce_heap (h : list (option completion)) (w : world) : world :=
  {| connection := connection w; cts_heap := cts_heap w; tce_heap := h;
     log_writer := log_writer w; negotiate_calls := negotiate_calls w;
     transport_calls := transport_calls w; user := user w |}.

Definition with_user (u : U) (w : world) : world :=
  {| connection := connection w; cts_heap := cts_heap w; tce_heap := tce_heap w;
     log_writer := log_writer w; negotiate_calls := negotiate_calls w;
     transport_calls := transport_calls w; user := u |}.

(** [logger.log(level, entry)] *)
Definition log (level : trace_level) (entry : string_t) (w : world) : world :=
  {| connection := connection w; cts_heap := cts_heap w; tce_heap := tce_heap w;
     log_writer := log_writer w ++ [(level, entry)]; negotiate_calls := negotiate_calls w;
     transport_calls := transport_calls w; user := user w |}.

Definition record_negotiate (u : string_t) (c : signalr_client_config) (w : world) : world :=
  {| connection := connection w; cts_heap := cts_heap w; tce_heap := tce_heap w;
     log_writer := log_writer w; negotiate_calls := negotiate_calls w ++ [(u, c)];
     transport_calls := transport_calls w; user := user w |}.

Definition record_transport_call (t : transport) (c : transport_call) (w : world) : world :=
  {| connection := connection w; cts_heap := cts_heap w; tce_heap := tce_heap w;
     log_writer := log_writer w; negotiate_calls := negotiate_calls w;
     transport_calls := transport_calls w ++ [(t, c)]; user := user w |}.

(** Assignments to the fields of the connection. *)
Definition set_connection_state (s : connection_state) (c : connection_impl) : connection_impl :=
  {| m_base_url := m_base_url c; m_connection_state := s; m_transport := m_transport c;
     m_signalr_client_config := m_signalr_client_config c;
     m_message_received := m_message_received c; m_disconnected := m_disconnected c;
     m_disconnect_cts := m_disconnect_cts c;
     m_start_completed_event := m_start_completed_event c;
     m_connection_id := m_connection_id c; m_message_id := m_message_id c;
     m_groups_token := m_groups_token c |}.

Definition set_transport (t : option transport) (c : connection_impl) : connection_impl :=
  {| m_base_url := m_base_url c; m_connection_state := m_connection_state c; m_transport := t;
     m_signalr_client_config := m_signalr_client_config c;
     m_message_received := m_message_received c; m_disconnected := m_disconnected c;
     m_disconnect_cts := m_disconnect_cts c;
     m_start_completed_event := m_start_completed_event c;
     m_connection_id := m_connection_id c; m_message_id := m_message_id c;
     m_groups_token := m_groups_token c |}.

Definition set_signalr_client_config (cfg : signalr_client_config) (c : connection_impl)
    : connection_impl :=
  {| m_base_url := m_base_url c; m_connection_state := m_connection_state c;
     m_transport := m_transport c; m_signalr_client_config := cfg;
     m_message_received := m_message_received c; m_disconnected := m_disconnected c;
     m_disconnect_cts := m_disconnect_cts c;
     m_start_completed_event := m_start_completed_event c;
     m_connection_id := m_connection_id c; m_message_id := m_message_id c;
     m_groups_token := m_groups_token c |}.

Definition set_message_received_callback (f : string_t -> U -> U * option thrown)
    (c : connection_impl) : connection_impl :=
  {| m_base_url := m_base_url c; m_connection_state := m_connection_state c;
     m_transport := m_transport c; m_signalr_client_config := m_signalr_client_config c;
     m_message_received := f; m_disconnected := m_disconnected c;
     m_disconnect_cts := m_disconnect_cts c;
     m_start_completed_event := m_start_completed_event c;
     m_connection_id := m_connection_id c; m_message_id := m_message_id c;
     m_groups_token := m_groups_token c |}.

Definition set_disconnected_callback (f : U -> U * option thrown)
    (c : connection_impl) : connection_impl :=
  {| m_base_url := m_base_url c; m_connection_state := m_connection_state c;
     m_transport := m_transport c; m_signalr_client_config := m_signalr_client_config c;
     m_message_received := m_message_received c; m_disconnected := f;
     m_disconnect_cts := m_disconnect_cts c;
     m_start_completed_event := m_start_completed_event c;
     m_connection_id := m_connection_id c; m_message_id := m_message_id c;
     m_groups_token := m_groups_token c |}.

Definition set_disconnect_cts (cts : cancellation_token_source) (c : connection_impl)
    : connection_impl :=
  {| m_base_url := m_base_url c; m_connection_state := m_connection_state c;
     m_transport := m_transport c; m_signalr_client_config := m_signalr_client_config c;
     m_message_received := m_message_received c; m_disconnected := m_disconnected c;
     m_disconnect_cts := cts;
     m_start_completed_event := m_start_completed_event c;
     m_connection_id := m_connection_id c; m_message_id := m_message_id c;
     m_groups_token := m_groups_token c |}.

Definition set_start_completed_event (b : bool) (c : connection_impl) : connection_impl :=
  {| m_base_url := m_base_url c; m_connection_state := m_connection_state c;
     m_transport := m_transport c; m_signalr_client_config := m_signalr_client_config c;
     m_message_received := m_message_received c; m_disconnected := m_disconnected c;
     m_disconnect_cts := m_disconnect_cts c;
     m_start_completed_event := b;
     m_connection_id := m_connection_id c; m_message_id := m_message_id c;
     m_groups_token := m_groups_token c |}.

Definition set_connection_id (id : string_t) (c : connection_impl) : connection_impl :=
  {| m_base_url := m_base_url c; m_connection_state := m_connection_state c;
     m_transport := m_transport c; m_signalr_client_config := m_signalr_client_config c;
     m_message_received := m_message_received c; m_disconnected := m_disconnected c;
     m_disconnect_cts := m_disconnect_cts c;
     m_start_completed_event := m_start_completed_event c;
     m_connection_id := id; m_message_id := m_message_id c;
     m_groups_token := m_groups_token c |}.

Definition set_message_id (id : string_t) (c : connection_impl) : connection_impl :=
  {| m_base_url := m_base_url c; m_connection_state := m_connection_state c;
     m_transport := m_transport c; m_signalr_client_config := m_signalr_client_config c;
     m_message_received := m_message_received c; m_disconnected := m_disconnected c;
     m_disconnect_cts := m_disconnect_cts c;
     m_start_completed_event := m_start_completed_event c;
     m_connection_id := m_connection_id c; m_message_id := id;
     m_groups_token := m_groups_token c |}.

Definition set_groups_token (tok : string_t) (c : connection_impl) : connection_impl :=
  {| m_base_url := m_base_url c; m_connection_state := m_connection_state c;
     m_transport := m_transport c; m_signalr_client_config := m_signalr_client_config c;
     m_message_received := m_message_received c; m_disconnected := m_disconnected c;
     m_disconnect_cts := m_disconnect_cts c;
     m_start_completed_event := m_start_completed_event c;
     m_connection_id := m_connection_id c; m_message_id := m_message_id c;
     m_groups_token := tok |}.

(** ** pplx primitives *)

(** [pplx::cancellation_token_source()]: a fresh source, not canceled. *)
Definition new_cancellation_token_source (w : world) : cancellation_token_source * world :=
  (length (cts_heap w), with_cts_heap (cts_heap w ++ [false]) w).

(** [cts.cancel()] *)
Definition cancel (cts : cancellation_token_source) (w : world) : world :=
  with_cts_heap (<[cts := true]> (cts_heap w)) w.

(** [cts.get_token().is_canceled()] *)
Definition is_canceled (cts : cancellation_token_source) (w : world) : bool :=
  default false (cts_heap w !! cts).

(** [pplx::task_completion_event<void>()] *)
Definition new_task_completion_event (w : world) : task_completion_event * world :=
  (length (tce_heap w), with_tce_heap (tce_heap w ++ [None]) w).

(** [tce.set()] and [tce.set_exception(e)]: the first completion is kept,
    a later one changes nothing. *)
Definition complete (tce : task_completion_event) (c : completion) (w : world) : world :=
  match tce_heap w !! tce with
  | Some None => with_tce_heap (<[tce := Some c]> (tce_heap w)) w
  | _ => w
  end.

Definition tce_set (tce : task_completion_event) (w : world) : world :=
  complete tce set_value w.

Definition tce_set_exception (tce : task_completion_event) (e : exn) (w : world) : world :=
  complete tce (set_exn e) w.

(** [pplx::create_task(tce)], as it stands in [w]. *)
Definition create_task (tce : task_completion_event) (w : world) : task_result unit :=
  match tce_heap w !! tce with
  | Some (Some set_value) => completed tt
  | Some (Some (set_exn e)) => faulted e
  | _ => pending
  end.

(** [t.then(k)] with a continuation that takes the value of [t]: when [t]
    did not complete the continuation is skipped and its task ends the way
    [t] did. *)
Definition then_value {A B : Type} (t : task_result A)
    (k : A -> world -> world * task_result B) (w : world) : world * task_result B :=
  match t with
  | completed a => k a w
  | faulted e => (w, faulted e)
  | pending => (w, pending)
  end.

(** [t.then(k, token)]: the continuation is also skipped, and its task
    canceled, when the token is canceled by the time it would start. Once
    started it runs to completion. *)
Definition then_value_token {A B : Type} (token : cancellation_token_source)
    (t : task_result A) (k : A -> world -> world * task_result B) (w : world)
    : world * task_result B :=
  match t with
  | completed a => if is_canceled token w then (w, canceled) else k a w
  | faulted e => (w, faulted e)
  | pending => (w, pending)
  end.

(** [t.then(k)] with a continuation that takes the task [t] itself: it
    runs whichever way [t] finished. *)
Definition then_task {A B : Type} (t : task_result A)
    (k : task_result A -> world -> world * task_result B) (w : world)
    : world * task_result B :=
  match t with
  | pending => (w, pending)
  | _ => k t w
  end.

(** The task of a [void] lambda: faulted when a thrown value leaves the
    lambda. Tasks of the model carry [std::exception]s; any other value is
    carried as one with a placeholder text. *)
Definition task_of_lambda (escaped : option thrown) : task_result unit :=
  match escaped with
  | None => completed tt
  | Some (thrown_std e) => faulted e
  | Some thrown_unknown => faulted (std_exception "(unknown)")
  end.

(** ** State transitions *)

Definition translate_connection_state (state : connection_state) : string_t :=
  match state with
  | connecting => "connecting"
  | connected => "connected"
  | disconnecting => "disconnecting"
  | disconnected => "disconnected"
  end.

Definition handle_connection_state_change (old_state new_state : connection_state)
    (w : world) : world :=
  log state_changes
    (translate_connection_state old_state +:+ " -> " +:+ translate_connection_state new_state) w.

Definition get_connection_state (w : world) : connection_state :=
  m_connection_state (connection w).

(** [bool change_state(old_state, new_state)]: compare-and-exchange. *)
Definition change_state (old_state new_state : connection_state) (w : world) : world * bool :=
  if decide (get_connection_state w = old_state) then
    (handle_connection_state_change old_state new_state
       (with_connection (set_connection_state new_state) w), true)
  else (w, false).

(** [connection_state change_state(new_state)]: unconditional exchange. *)
Definition change_state_to (new_state : connection_state) (w : world)
    : world * connection_state :=
  let old_state := get_connection_state w in
  let w := with_connection (set_connection_state new_state) w in
  (if decide (old_state = new_state) then w
   else handle_connection_state_change old_state new_state w, old_state).

(** ** Construction *)

(** [connection_impl::create] and the constructor. The trace level and the
    log writer configure the sink only; [u0] is the consumer's state. *)
Definition create (url : string_t) (u0 : U) : world :=
  {| connection :=
       {| m_base_url := url;
          m_connection_state := disconnected;
          m_transport := None;
          m_signalr_client_config := {| http_headers := ∅ |};
          m_message_received := fun _ u => (u, None);
          m_disconnected := fun u => (u, None);
          m_disconnect_cts := 0;
          m_start_completed_event := false;
          m_connection_id := "";
          m_message_id := "";
          m_groups_token := "" |};
     cts_heap := [false];
     tce_heap := [];
     log_writer := [];
     negotiate_calls := [];
     transport_calls := [];
     user := u0 |}.

(** ** Receiving *)

Definition invoke_message_received (message : string_t) (w : world) : world * option thrown :=
  let (u, r) := m_message_received (connection w) message (user w) in
  let w := with_user u w in
  match r with
  | None => (w, None)
  | Some (thrown_std e) =>
      (log errors ("message_received callback threw an exception: " +:+ what e) w, None)
  | Some thrown_unknown =>
      (log errors "message_received callback threw an unknown exception" w, None)
  end.

Definition process_response (response : string_t) (w : world) : world * option thrown :=
  let w := log messages ("processing message: " +:+ response) w in
  invoke_message_received response w.

(** The two closures that [start_transport] hands to the transport
    factory, applied to what they captured. The second component of
    [process_response_callback] is what the call throws at the transport. *)
Definition process_response_callback (disconnect_cts : cancellation_token_source)
    (response : string_t) (w : world) : world * option thrown :=
  if is_canceled disconnect_cts w then
    (log info
       ("ignoring stray message received after connection was restarted. message: "
          +:+ response) w, None)
  else process_response response w.

Definition error_callback (connect_request_tce : task_completion_event)
    (disconnect_cts : cancellation_token_source) (e : exn) (w : world) : world :=
  if is_canceled disconnect_cts w then
    log info
      ("ignoring stray error received after connection was restarted. error: " +:+ what e) w
  else tce_set_exception connect_request_tce (slice e) w.

(** ** Connecting the transport *)

(** Milliseconds slept by the background task of [start_transport]. *)
Definition transport_connect_timeout : Z := 5000.

(** The body of that task after the sleep. *)
Definition connect_timeout_task (connect_request_tce : task_completion_event)
    (disconnect_cts : cancellation_token_source) (w : world) : world :=
  if is_canceled disconnect_cts w then tce_set connect_request_tce w
  else tce_set_exception connect_request_tce
         (signalr_exception "transport timed out when trying to connect") w.

(** The continuation that [send_connect_request] attaches to the task of
    [transport->connect]. *)
Definition connect_task_continuation (connect_request_tce : task_completion_event)
    (connect_task : task_result unit) (w : world) : world :=
  match connect_task with
  | completed _ => tce_set connect_request_tce w
  | faulted e =>
      tce_set_exception connect_request_tce e
        (log errors ("transport could not connect due to: " +:+ what e) w)
  | pending => w
  end.

(** [shutdown] up to the point where it waits for the start-completed
    event: [Some r] when it returns [r] before that. *)
Definition shutdown_until_wait (w : world) : world * option (task_result unit) :=
  let w := log info "acquired lock in shutdown()" w in
  match get_connection_state w with
  | disconnected => (w, Some (completed tt))
  | disconnecting => (w, Some canceled)
  | _ => (cancel (m_disconnect_cts (connection w)) w, None)
  end.

(** A [shutdown] call of another thread while [start] is in flight. *)
Definition interfere (stop_now : bool) (w : world) : world :=
  if stop_now then fst (shutdown_until_wait w) else w.

(** What can happen while [start] waits for [connect_request_tce]. *)
Inductive connect_event :=
| connect_finished (connect_task : task_result unit)
| transport_error (e : exn)
| transport_message (response : string_t)
| stop_requested.

Definition deliver (t : transport) (ev : connect_event) (w : world) : world :=
  match ev with
  | connect_finished connect_task =>
      connect_task_continuation (connect_request_tce t) connect_task w
  | transport_error e => error_callback (connect_request_tce t) (disconnect_cts t) e w
  | transport_message response =>
      fst (process_response_callback (disconnect_cts t) response w)
  | stop_requested => interfere true w
  end.

(** The wait for [connect_request_tce]. Events carry the time in
    milliseconds since the timeout task was created and arrive in list
    order; the timeout task runs before the first event that is not earlier
    than [transport_connect_timeout]. The wait is over with the first
    completion. *)
Fixpoint await_connect (t : transport) (events : list (Z * connect_event)) (w : world)
    : world :=
  match events with
  | [] => connect_timeout_task (connect_request_tce t) (disconnect_cts t) w
  | (at_ms, ev) :: rest =>
      if (transport_connect_timeout <=? at_ms)%Z then
        connect_timeout_task (connect_request_tce t) (disconnect_cts t) w
      else
        let w := deliver t ev w in
        match create_task (connect_request_tce t) w with
        | pending => await_connect t rest w
        | _ => w
        end
  end.

(** [send_connect_request] up to its [return]; the continuation it
    attaches is [connect_task_continuation]. *)
Definition send_connect_request (X : externals) (t : transport) (url : string_t)
    (w : world) : world :=
  let query_string := "id=" +:+ m_connection_id (connection w) in
  let connect_url := build_connect X url websockets query_string in
  record_transport_call t (call_connect connect_url) w.

Definition start_transport (X : externals) (events : list (Z * connect_event))
    (url : string_t) (w : world) : world * task_result transport :=
  let '(connect_request_tce, w) := new_task_completion_event w in
  let disconnect_cts := m_disconnect_cts (connection w) in
  let transport :=
    {| disconnect_cts := disconnect_cts; connect_request_tce := connect_request_tce |} in
  let w := send_connect_request X transport url w in
  let w := await_connect transport events w in
  then_value (create_task connect_request_tce w) (fun _ w => (w, completed transport)) w.

(** ** Starting *)

(** The collaborators and the other threads as [start] meets them. The
    first three are indexed by the redirect count of the negotiation
    round. *)
Record start_environment := {
  (* another thread calls [shutdown] before the first continuation starts *)
  stop_before_negotiate : Z -> bool;
  (* the task of [request_sender::negotiate] for a url and configuration *)
  negotiate : Z -> string_t -> signalr_client_config -> task_result negotiation_response;
  (* another thread calls [shutdown] before the second continuation starts *)
  stop_during_negotiate : Z -> bool;
  (* what happens while the transport connects *)
  connect_events : list (Z * connect_event)
}.

(** The server leaves a negotiate request without an answer. *)
Definition unanswered (env : start_environment) : Prop :=
  exists redirect_count url config, negotiate env redirect_count url config = pending.

(** The loop over [availableTransports]. *)
Fixpoint foundWebsockets (availableTransports : list available_transport) : bool :=
  match availableTransports with
  | [] => false
  | availableTransport :: rest =>
      if String.eqb (transport_name availableTransport) "WebSockets" then true
      else foundWebsockets rest
  end.

(** The redirect branch: the bearer token goes into the headers. *)
Definition set_authorization (accessToken : string_t) (c : connection_impl) : connection_impl :=
  let headers := get_http_headers (m_signalr_client_config c) in
  let headers := <["Authorization" := "Bearer " +:+ accessToken]> headers in
  set_signalr_client_config (set_http_headers headers (m_signalr_client_config c)) c.

(** The continuation of [start_transport(url)] in [start_negotiate]. *)
Definition transport_started (transport : transport) (w : world) : world * task_result unit :=
  let w := with_connection (set_transport (Some transport)) w in
  let (w, changed) := change_state connecting connected w in
  let w :=
    if changed then w
    else log errors
           ("internal error - transition from an unexpected state. expected state: connecting, actual state: "
              +:+ translate_connection_state (get_connection_state w)) w in
  (w, completed tt).

(** The last continuation of [start_negotiate]; the task it yields is
    that of [start_tce]. *)
Definition start_completion (previous_task : task_result unit) (w : world)
    : world * task_result unit :=
  match previous_task with
  | completed _ => (with_connection (set_start_completed_event true) w, completed tt)
  | faulted e =>
      let w :=
        if is_task_canceled e then log info "starting the connection has been canceled." w
        else log errors ("connection could not be started due to: " +:+ what e) w in
      let w := with_connection (set_transport None) w in
      let w := fst (change_state_to disconnected w) in
      let w := with_connection (set_start_completed_event true) w in
      (w, faulted e)
  | pending => (w, pending)
  end.

(** The first continuation of [start_negotiate]: the negotiate request. *)
Definition negotiate_continuation (env : start_environment) (url : string_t)
    (redirect_count : Z) (w : world) : world * task_result negotiation_response :=
  let config := m_signalr_client_config (connection w) in
  (record_negotiate url config w, negotiate env redirect_count url config).

(** The second continuation of [start_negotiate]. [start_negotiate] is the
    member function itself, for the call in the redirect branch. *)
Definition negotiated_continuation (X : externals) (env : start_environment)
    (start_negotiate : string_t -> Z -> world -> world * task_result unit)
    (url : string_t) (redirect_count : Z) (negotiation_response : negotiation_response)
    (w : world) : world * task_result unit :=
  if negb (String.eqb (error negotiation_response) "") then
    (w, faulted (signalr_exception (error negotiation_response)))
  else if negb (String.eqb (response.url negotiation_response) "") then
    let w :=
      if negb (String.eqb (accessToken negotiation_response) "") then
        with_connection (set_authorization (accessToken negotiation_response)) w
      else w in
    start_negotiate (response.url negotiation_response) (redirect_count + 1)%Z w
  else
    let w := with_connection (set_connection_id (connectionId negotiation_response)) w in
    if negb (foundWebsockets (availableTransports negotiation_response)) then
      (w, faulted (signalr_exception
         "The server does not support WebSockets which is currently the only transport supported by this client."))
    else
      let '(w, started) := start_transport X (connect_events env) url w in
      then_value started transport_started w.

(** [start_negotiate(url, redirect_count)]: the three continuations, the
    first two bound to the token of [m_disconnect_cts]. The recursion is
    on [fuel]; [start_negotiate] below supplies as much as the redirect
    bound leaves, so the [O] case is not reached. *)
Fixpoint start_negotiate_rounds (fuel : nat) (X : externals) (env : start_environment)
    (url : string_t) (redirect_count : Z) (w : world) : world * task_result unit :=
  if (MAX_NEGOTIATE_REDIRECTS X <=? redirect_count)%Z then
    (w, faulted (signalr_exception "Negotiate redirection limit exceeded."))
  else
    match fuel with
    | O => (w, pending)
    | S fuel =>
        let token := m_disconnect_cts (connection w) in
        let w := interfere (stop_before_negotiate env redirect_count) w in
        let '(w, negotiated) :=
          then_value_token token (completed tt)
            (fun _ => negotiate_continuation env url redirect_count) w in
        let w := interfere (stop_during_negotiate env redirect_count) w in
        let '(w, previous_task) :=
          then_value_token token negotiated
            (negotiated_continuation X env (start_negotiate_rounds fuel X env)
               url redirect_count) w in
        then_task previous_task start_completion w
    end.

Definition start_negotiate (X : externals) (env : start_environment)
    (url : string_t) (redirect_count : Z) (w : world) : world * task_result unit :=
  start_negotiate_rounds (S (Z.to_nat (MAX_NEGOTIATE_REDIRECTS X - redirect_count)))
    X env url redirect_count w.

Definition start (X : externals) (env : start_environment) (w : world)
    : world * task_result unit :=
  let (w, changed) := change_state disconnected connecting w in
  if negb changed then
    (w, faulted (signalr_exception
       "cannot start a connection that is not in the disconnected state"))
  else
    let '(cts, w) := new_cancellation_token_source w in
    let w := with_connection (set_disconnect_cts cts) w in
    let w := with_connection (set_start_completed_event false) w in
    let w := with_connection (set_connection_id "") w in
    let w := with_connection (set_groups_token "") w in
    let w := with_connection (set_message_id "") w in
    start_negotiate X env (m_base_url (connection w)) 0 w.

(** ** Sending *)

(** [send_task] is the task that [transport->send(data)] returns. *)
Definition send (send_task : task_result unit) (data : string_t) (w : world)
    : world * task_result unit :=
  let transport := m_transport (connection w) in
  let connection_state := get_connection_state w in
  let not_connected :=
    (w, faulted (signalr_exception
       ("cannot send data when the connection is not in the connected state. current connection state: "
          +:+ translate_connection_state connection_state))) in
  match transport with
  | None => not_connected
  | Some t =>
      if decide (connection_state = connected) then
        let w := log info ("sending data: " +:+ data) w in
        let w := record_transport_call t (call_send data) w in
        then_task send_task
          (fun send_task w =>
             match send_task with
             | faulted e => (log errors ("error sending data: " +:+ what e) w, faulted e)
             | _ => (w, send_task)
             end) w
      else not_connected
  end.

(** ** Stopping *)

(** [disconnect_task] is the task that [m_transport->disconnect()]
    returns. The wait loop on the start-completed event is left only once
    the event is set. *)
Definition shutdown (disconnect_task : task_result unit) (w : world)
    : outcome (world * task_result unit) :=
  match shutdown_until_wait w with
  | (w, Some r) => returns (w, r)
  | (w, None) =>
      if negb (m_start_completed_event (connection w)) then never_returns
      else if decide (get_connection_state w = disconnected) then returns (w, completed tt)
      else
        let w := fst (change_state_to disconnecting w) in
        match m_transport (connection w) with
        | None => null_dereference
        | Some t => returns (record_transport_call t call_disconnect w, disconnect_task)
        end
  end.

(** The [try] block around [m_disconnected()] in the continuation of
    [stop]: the thrown value that leaves it, if any. *)
Definition invoke_disconnected (w : world) : world * option thrown :=
  let (u, r) := m_disconnected (connection w) (user w) in
  let w := with_user u w in
  match r with
  | None => (w, None)
  | Some (thrown_std e) =>
      (log errors ("disconnected callback threw an exception: " +:+ what e) w, None)
  | Some thrown_unknown =>
      (log errors "disconnected callback threw an unknown exception" w, None)
  end.

(** The continuation of [shutdown()] in [stop]. *)
Definition stop_continuation (w : world) : world * task_result unit :=
  let (w, changed) := change_state disconnecting disconnected w in
  let w := if changed then with_connection (set_transport None) w else w in
  let (w, escaped) := invoke_disconnected w in
  (w, task_of_lambda escaped).

Definition stop (disconnect_task : task_result unit) (w : world)
    : outcome (world * task_result unit) :=
  let w := log info "stopping connection" w in
  match shutdown disconnect_task w with
  | returns (w, shutdown_task) =>
      returns (then_value shutdown_task (fun _ => stop_continuation) w)
  | never_returns => never_returns
  | null_dereference => null_dereference
  end.

(** ** Accessors *)

Definition get_connection_id (w : world) : string_t :=
  if decide (get_connection_state w = connecting) then ""
  else m_connection_id (connection w).

(** [ensure_disconnected]: the exception it throws, if any. *)
Definition ensure_disconnected (error_message : string_t) (w : world) : option exn :=
  let state := get_connection_state w in
  if decide (state = disconnected) then None
  else Some (signalr_exception
               (error_message +:+ "current connection state: "
                  +:+ translate_connection_state state)).

Definition set_message_received (message_received : string_t -> U -> U * option thrown)
    (w : world) : world * option exn :=
  match ensure_disconnected
          "cannot set the callback when the connection is not in the disconnected state. " w with
  | Some e => (w, Some e)
  | None => (with_connection (set_message_received_callback message_received) w, None)
  end.

Definition set_client_config (config : signalr_client_config) (w : world)
    : world * option exn :=
  match ensure_disconnected
          "cannot set client config when the connection is not in the disconnected state. " w with
  | Some e => (w, Some e)
  | None => (with_connection (set_signalr_client_config config) w, None)
  end.

Definition set_disconnected (disconnected : U -> U * option thrown) (w : world)
    : world * option exn :=
  match ensure_disconnected
          "cannot set the disconnected callback when the connection is not in the disconnected state. " w with
  | Some e => (w, Some e)
  | None => (with_connection (set_disconnected_callback disconnected) w, None)
  end.

(** ** Everything that acts on a connection *)

(** The public operations with what their collaborators answer, and the
    calls that a transport or the timeout task of an earlier [start] makes
    later on. *)
Inductive operation :=
| op_start (X : externals) (env : start_environment)
| op_stop (disconnect_task : task_result unit)
| op_shutdown (disconnect_task : task_result unit)
| op_send (send_task : task_result unit) (data : string_t)
| op_set_message_received (message_received : string_t -> U -> U * option thrown)
| op_set_disconnected (disconnected : U -> U * option thrown)
| op_set_client_config (config : signalr_client_config)
| op_transport_message (t : transport) (response : string_t)
| op_transport_error (t : transport) (e : exn)
| op_connect_finished (t : transport) (connect_task : task_result unit)
| op_connect_timeout (t : transport).

(** The world after an operation, when the call returns. *)
Definition perform (op : operation) (w : world) : option world :=
  match op with
  | op_start X env => Some (fst (start X env w))
  | op_stop disconnect_task =>
      match stop disconnect_task w with
      | returns (w, _) => Some w
      | _ => None
      end
  | op_shutdown disconnect_task =>
      match shutdown disconnect_task w with
      | returns (w, _) => Some w
      | _ => None
      end
  | op_send send_task data => Some (fst (send send_task data w))
  | op_set_message_received f => Some (fst (set_message_received f w))
  | op_set_disconnected f => Some (fst (set_disconnected f w))
  | op_set_client_config config => Some (fst (set_client_config config w))
  | op_transport_message t response =>
      Some (fst (process_response_callback (disconnect_cts t) response w))
  | op_transport_error t e =>
      Some (error_callback (connect_request_tce t) (disconnect_cts t) e w)
  | op_connect_finished t connect_task =>
      Some (connect_task_continuation (connect_request_tce t) connect_task w)
  | op_connect_timeout t =>
      Some (connect_timeout_task (connect_request_tce t) (disconnect_cts t) w)
  end.

Fixpoint perform_all (ops : list operation) (w : world) : option world :=
  match ops with
  | [] => Some w
  | op :: rest =>
      match perform op w with
      | Some w => perform_all rest w
      | None => None
      end
  end.

(** Every source that is canceled in [w] is canceled in [w']. *)
Definition keeps_canceled (w w' : world) : Prop :=
  forall cts, is_canceled cts w = true -> is_canceled cts w' = true.

(** A failed start has undone what it did. *)
Definition cleaned_up (w : world) : Prop :=
  get_connection_state w = disconnected /\
  m_transport (connection w) = None /\
  m_start_completed_event (connection w) = true.

(** A start that succeeded. *)
Definition established (w : world) : Prop :=
  get_connection_state w = connected /\
  is_Some (m_transport (connection w)) /\
  m_start_completed_event (connection w) = true.

(** The invariant of the transport handle. *)
Definition transport_invariant (w : world) : Prop :=
  get_connection_state w = disconnected -> m_transport (connection w) = None.

(** ** Destruction *)

(** The last two statements of the destructor. *)
Definition finalize (w : world) : world :=
  fst (change_state_to disconnected (with_connection (set_transport None) w)).

(** [~connection_impl]: the start-completed event is set, then
    [shutdown().get()] waits for the task of [shutdown]. A
    [pplx::task_canceled] leaves the destructor at once, anything else
    thrown is swallowed. [disconnect_task] is the task of
    [m_transport->disconnect()]. *)
Definition destroy (disconnect_task : task_result unit) (w : world) : outcome world :=
  let w := with_connection (set_start_completed_event true) w in
  match shutdown disconnect_task w with
  | returns (w, completed _) => returns (finalize w)
  | returns (w, faulted e) => if is_task_canceled e then returns w else returns (finalize w)
  | returns (w, pending) => never_returns
  | never_returns => never_returns
  | null_dereference => null_dereference
  end.

(** ** Reading the log *)

(** The texts logged at the level of state changes, oldest first. *)
Fixpoint state_changes_of (entries : list (trace_level * string_t)) : list string_t :=
  match entries with
  | [] => []
  | (state_changes, text) :: rest => text :: state_changes_of rest
  | _ :: rest => state_changes_of rest
  end.

Definition transitions (w : world) : list string_t := state_changes_of (log_writer w).

(** ** Sessions *)

(** From [w] to [w'] no cancellation source was made, and none was
    canceled except possibly [cts]. *)
Definition only_cancels (cts : cancellation_token_source) (w w' : world) : Prop :=
  cts_heap w' = cts_heap w \/ cts_heap w' = <[cts := true]> (cts_heap w).

(** From [w] to [w'] the connection object, the calls on collaborators
    and the logged state changes are the same, and no source but that of
    the connection was canceled. *)
Definition undisturbed (w w' : world) : Prop :=
  connection w' = connection w /\
  negotiate_calls w' = negotiate_calls w /\
  transport_calls w' = transport_calls w /\
  transitions w' = transitions w /\
  only_cancels (m_disconnect_cts (connection w)) w w'.

(** What [start] sets up for a session and then leaves alone. *)
Definition same_session (c c' : connection_impl) : Prop :=
  m_base_url c' = m_base_url c /\
  m_message_received c' = m_message_received c /\
  m_disconnected c' = m_disconnected c /\
  m_disconnect_cts c' = m_disconnect_cts c /\
  m_message_id c' = m_message_id c /\
  m_groups_token c' = m_groups_token c.

(** The cancellation source of the connection exists, and a transport
    that is attached captured that source and finished connecting. *)
Definition session_invariant (w : world) : Prop :=
  transport_invariant w /\
  m_disconnect_cts (connection w) < length (cts_heap w) /\
  forall t,
    m_transport (connection w) = Some t ->
    disconnect_cts t = m_disconnect_cts (connection w) /\
    tce_heap w !! connect_request_tce t = Some (Some set_value).

(** ** A second [start] while the first one cleans up *)

(** The block of [start] under [m_stop_lock]; [false] when the state is
    not disconnected and the call is rejected. *)
Definition start_under_lock (w : world) : world * bool :=
  let (w, changed) := change_state disconnected connecting w in
  if negb changed then (w, false)
  else
    let '(cts, w) := new_cancellation_token_source w in
    let w := with_connection (set_disconnect_cts cts) w in
    let w := with_connection (set_start_completed_event false) w in
    let w := with_connection (set_connection_id "") w in
    let w := with_connection (set_groups_token "") w in
    let w := with_connection (set_message_id "") w in
    (w, true).

(** [start_negotiate] without its last continuation: the task which that
    continuation is attached to, [None] when the redirect limit is
    exceeded and no continuation is made. *)
Definition start_negotiate_before_completion (X : externals) (env : start_environment)
    (url : string_t) (redirect_count : Z) (w : world)
    : world * option (task_result unit) :=
  if (MAX_NEGOTIATE_REDIRECTS X <=? redirect_count)%Z then (w, None)
  else
    let token := m_disconnect_cts (connection w) in
    let w := interfere (stop_before_negotiate env redirect_count) w in
    let '(w, negotiated) :=
      then_value_token token (completed tt)
        (fun _ => negotiate_continuation env url redirect_count) w in
    let w := interfere (stop_during_negotiate env redirect_count) w in
    let '(w, previous_task) :=
      then_value_token token negotiated
        (negotiated_continuation X env (start_negotiate X env) url redirect_count) w in
    (w, Some previous_task).

(** Two threads call [start] on the same connection. The continuations of
    [start_negotiate] are tasks of their own and take no lock. The last
    one of a round is scheduled when the task before it has ended; after a
    redirect that is the task of the nested call, which ends with the
    clean-up of the nested round. In this schedule the second thread calls
    [start] at that moment: its locked block runs and its continuations
    are queued, the last continuation of the first call runs, and then the
    continuations of the second call run. The result is the world at the
    end with the task of the first and of the second call; [None] when the
    first call is rejected or makes no continuation. *)
Definition start_during_cleanup (X : externals) (first second : start_environment)
    (w : world) : option (world * task_result unit * task_result unit) :=
  match start_under_lock w with
  | (w, false) => None
  | (w, true) =>
      match start_negotiate_before_completion X first (m_base_url (connection w)) 0 w with
      | (w, None) => None
      | (w, Some previous_task) =>
          let '(w, accepted) := start_under_lock w in
          let url := m_base_url (connection w) in
          let '(w, first_task) := then_task previous_task start_completion w in
          let '(w, second_task) :=
            if accepted then start_negotiate X second url 0 w
            else (w, faulted (signalr_exception
                   "cannot start a connection that is not in the disconnected state")) in
          Some (w, first_task, second_task)
      end
  end.

End Model.

Arguments op_start {U} X env.
Arguments op_stop {U} disconnect_task.
Arguments op_shutdown {U} disconnect_task.
Arguments op_send {U} send_task data.
Arguments op_set_client_config {U} config.
Arguments op_transport_message {U} t response.
Arguments op_transport_error {U} t e.
Arguments op_connect_finished {U} t connect_task.
Arguments op_connect_timeout {U} t.

(** ** Reading messages *)

(** [needle] occurs in [text]. *)
Definition mentions (needle text : string_t) : bool :=
  match String.index 0 needle text with
  | Some _ => true
  | None => false
  end.

(** The message of [start] on a connection that is not disconnected. *)
Definition start_rejected_message : string_t :=
  "cannot start a connection that is not in the disconnected state".

(** [start] fails with an error whose message names the state the
    connection is in. *)
Definition start_rejection_names_state {U : Type} (X : externals) (env : start_environment)
    (w : world U) : Prop :=
  exists message,
    snd (start X env w) = faulted (signalr_exception message) /\
    mentions (translate_connection_state (get_connection_state w)) message = true.

(** ** Sample collaborators *)

Module sample.

Definition X : externals :=
  {| MAX_NEGOTIATE_REDIRECTS := 3;
     build_connect := fun url _ query_string => url +:+ "?" +:+ query_string |}.

Definition final_response : negotiation_response :=
  {| connectionId := "abc";
     availableTransports :=
       [ {| transport_name := "WebSockets"; transfer_formats := ["Text"] |} ];
     url := "";
     accessToken := "";
     error := "" |}.

Definition redirect_response : negotiation_response :=
  {| connectionId := "";
     availableTransports := [];
     url := "http://redirected";
     accessToken := "secret";
     error := "" |}.

(** The server answers at once and the transport connects after 100 ms. *)
Definition env_connects : start_environment :=
  {| stop_before_negotiate := fun _ => false;
     negotiate := fun _ _ _ => completed final_response;
     stop_during_negotiate := fun _ => false;
     connect_events := [(100%Z, connect_finished (completed tt))] |}.

(** The transport answers after six seconds. *)
Definition env_slow_transport : start_environment :=
  {| stop_before_negotiate := fun _ => false;
     negotiate := fun _ _ _ => completed final_response;
     stop_during_negotiate := fun _ => false;
     connect_events := [(6000%Z, connect_finished (completed tt))] |}.

(** One redirect with a bearer token, then the final response. *)
Definition env_one_redirect : start_environment :=
  {| stop_before_negotiate := fun _ => false;
     negotiate := fun redirect_count _ _ =>
       if (redirect_count =? 0)%Z then completed redirect_response
       else completed final_response;
     stop_during_negotiate := fun _ => false;
     connect_events := [(100%Z, connect_finished (completed tt))] |}.

(** A consumer that counts what it receives; it throws on every call. *)
Definition throwing_message_received (message : string_t) (n : nat) : nat * option thrown :=
  (S n, Some thrown_unknown).

Definition fresh : world nat := create "http://host/hub" 0%nat.

Definition in_state (s : connection_state) : world nat :=
  with_connection (set_connection_state s) fresh.

(** The server reports an error. *)
Definition env_server_error : start_environment :=
  {| stop_before_negotiate := fun _ => false;
     negotiate := fun _ _ _ =>
       completed {| connectionId := ""; availableTransports := []; url := "";
                    accessToken := ""; error := "bad request" |};
     stop_during_negotiate := fun _ => false;
     connect_events := [] |}.

(** The negotiate request fails. *)
Definition env_negotiate_fails : start_environment :=
  {| stop_before_negotiate := fun _ => false;
     negotiate := fun _ _ _ => faulted (std_exception "web exception - 404");
     stop_during_negotiate := fun _ => false;
     connect_events := [] |}.

(** The server redirects for ever. *)
Definition env_redirect_loop : start_environment :=
  {| stop_before_negotiate := fun _ => false;
     negotiate := fun _ _ _ => completed redirect_response;
     stop_during_negotiate := fun _ => false;
     connect_events := [] |}.

(** The server offers long polling only. *)
Definition env_no_websockets : start_environment :=
  {| stop_before_negotiate := fun _ => false;
     negotiate := fun _ _ _ =>
       completed {| connectionId := "abc";
                    availableTransports :=
                      [ {| transport_name := "LongPolling"; transfer_formats := [] |} ];
                    url := ""; accessToken := ""; error := "" |};
     stop_during_negotiate := fun _ => false;
     connect_events := [] |}.

(** The transport fails to connect after 100 ms. *)
Definition env_connect_fails : start_environment :=
  {| stop_before_negotiate := fun _ => false;
     negotiate := fun _ _ _ => completed final_response;
     stop_during_negotiate := fun _ => false;
     connect_events := [(100%Z, connect_finished (faulted (std_exception "refused")))] |}.

(** Another thread stops the connection while the server is asked. *)
Definition env_stopped_during_negotiate : start_environment :=
  {| stop_before_negotiate := fun _ => false;
     negotiate := fun _ _ _ => completed final_response;
     stop_during_negotiate := fun _ => true;
     connect_events := [(100%Z, connect_finished (completed tt))] |}.

(** The transport connects, then stays silent past the timeout. *)
Definition late_error : list (Z * connect_event) :=
  [(100%Z, connect_finished (completed tt));
   (200%Z, transport_error (std_exception "late"))].

(** A start, a stop, and a start again. *)
Definition started : world nat := fst (start X env_connects fresh).

Definition session : list (operation nat) :=
  [op_start X env_connects; op_stop (completed tt)].

Definition stopped : world nat := default fresh (perform_all session fresh).

Definition restarted : world nat :=
  default fresh (perform_all [op_start X env_connects] stopped).

(** The transport of the first session. *)
Definition old_transport : transport :=
  {| disconnect_cts := 1; connect_request_tce := 0 |}.

(** A consumer that counts the calls and throws on each. *)
Definition with_throwing_consumer : world nat :=
  with_connection (set_message_received_callback throwing_message_received) fresh.

(** A world with one completion event that is not completed. *)
Definition connecting_transport : transport :=
  {| disconnect_cts := 0; connect_request_tce := 0 |}.

Definition awaiting : world nat := snd (new_task_completion_event fresh).

(** The response of [env_server_error]. *)
Definition error_response : negotiation_response :=
  {| connectionId := ""; availableTransports := []; url := "";
     accessToken := ""; error := "bad request" |}.

(** The response of [env_no_websockets]. *)
Definition long_polling_response : negotiation_response :=
  {| connectionId := "abc";
     availableTransports :=
       [ {| transport_name := "LongPolling"; transfer_formats := [] |} ];
     url := ""; accessToken := ""; error := "" |}.

(** The session, then a start again. *)
Definition session_and_restart : list (operation nat) :=
  [op_start X env_connects; op_stop (completed tt); op_start X env_connects].

(** One redirect, then the server reports an error. *)
Definition env_redirect_then_error : start_environment :=
  {| stop_before_negotiate := fun _ => false;
     negotiate := fun redirect_count _ _ =>
       if (redirect_count =? 0)%Z then completed redirect_response
       else completed error_response;
     stop_during_negotiate := fun _ => false;
     connect_events := [] |}.

(** A consumer that counts the calls of its on-disconnected callback and
    throws on each. *)
Definition throwing_disconnected (n : nat) : nat * option thrown :=
  (S n, Some (thrown_std (std_exception "boom"))).

(** A connected connection of that consumer, and the same connection when
    [shutdown] has returned in [stop]. *)
Definition connected_with_throwing_consumer : world nat :=
  fst (start X env_connects
         (with_connection (set_disconnected_callback throwing_disconnected) fresh)).

Definition shut_down_with_throwing_consumer : world nat :=
  match shutdown (completed tt)
          (log info "stopping connection" connected_with_throwing_consumer) with
  | returns (w, _) => w
  | _ => fresh
  end.

(** The world after a first [start] that is redirected and then refused,
    and a second [start] that is called while the first cleans up and to
    which the server and the transport answer well. *)
Definition overtaken : world nat :=
  match start_during_cleanup X env_redirect_then_error env_connects fresh with
  | Some (w, _, _) => w
  | None => fresh
  end.

(** The transport of the second call. *)
Definition overtaking_transport : transport :=
  {| disconnect_cts := 2; connect_request_tce := 0 |}.

(** What is left of a start: its result, the state, the transport handle
    and the start-completed event. *)
Definition summary (r : world nat * task_result unit) :=
  (snd r, get_connection_state (fst r), m_transport (connection (fst r)),
   m_start_completed_event (connection (fst r))).

End sample.

(** * Properties *)

Section Properties.

Variable U : Type.
Implicit Types (w : world U) (t : transport) (e : exn).

(** ** What leaves the connection object alone *)

Lemma connection_log level entry w : connection (log level entry w) = connection w.
Proof. reflexivity. Qed.

Lemma connection_complete tce c w : connection (complete tce c w) = connection w.
Proof. unfold complete. destruct (tce_heap w !! tce) as [[?|]|]; reflexivity. Qed.

Lemma connection_shutdown_until_wait w :
  connection (fst (shutdown_until_wait w)) = connection w.
Proof.
  unfold shutdown_until_wait.
  destruct (get_connection_state (log info "acquired lock in shutdown()" w)); reflexivity.
Qed.

Lemma connection_interfere b w : connection (interfere b w) = connection w.
Proof. destruct b; [apply connection_shutdown_until_wait | reflexivity]. Qed.

Lemma connection_invoke_message_received message w :
  connection (fst (invoke_message_received message w)) = connection w.
Proof.
  unfold invoke_message_received.
  destruct (m_message_received (connection w) message (user w)) as [u [[e|]|]]; reflexivity.
Qed.

Lemma connection_process_response_callback cts response w :
  connection (fst (process_response_callback cts response w)) = connection w.
Proof.
  unfold process_response_callback, process_response.
  destruct (is_canceled cts w); [reflexivity |].
  now rewrite connection_invoke_message_received.
Qed.

Lemma connection_error_callback tce cts e w :
  connection (error_callback tce cts e w) = connection w.
Proof.
  unfold error_callback, tce_set_exception.
  destruct (is_canceled cts w); [reflexivity | apply connection_complete].
Qed.

Lemma connection_connect_timeout_task tce cts w :
  connection (connect_timeout_task tce cts w) = connection w.
Proof.
  unfold connect_timeout_task, tce_set, tce_set_exception.
  destruct (is_canceled cts w); apply connection_complete.
Qed.

Lemma connection_connect_task_continuation tce r w :
  connection (connect_task_continuation tce r w) = connection w.
Proof.
  unfold connect_task_continuation, tce_set, tce_set_exception.
  destruct r; try reflexivity; now rewrite connection_complete.
Qed.

Lemma connection_deliver t ev w : connection (deliver t ev w) = connection w.
Proof.
  destruct ev; simpl.
  - apply connection_connect_task_continuation.
  - apply connection_error_callback.
  - apply connection_process_response_callback.
  - apply connection_shutdown_until_wait.
Qed.

Lemma connection_await_connect t events w :
  connection (await_connect t events w) = connection w.
Proof.
  revert w. induction events as [|[at_ms ev] rest IH]; intros w; simpl.
  - apply connection_connect_timeout_task.
  - destruct (transport_connect_timeout <=? at_ms)%Z.
    + apply connection_connect_timeout_task.
    + destruct (create_task (connect_request_tce t) (deliver t ev w));
        try apply connection_deliver.
      rewrite IH. apply connection_deliver.
Qed.

(** [start_transport] in one piece: the transport it makes, the world
    once the wait is over, and the task it returns. *)
Lemma start_transport_unfold X events url w :
  let t := {| disconnect_cts := m_disconnect_cts (connection w);
              connect_request_tce := length (tce_heap w) |} in
  let w1 := await_connect t events
              (send_connect_request X t url (with_tce_heap (tce_heap w ++ [None]) w)) in
  start_transport X events url w =
    (w1, match create_task (length (tce_heap w)) w1 with
         | completed _ => completed t
         | faulted e => faulted e
         | pending => pending
         end).
Proof.
  intros t w1. unfold start_transport, new_task_completion_event. simpl.
  fold t. fold w1. destruct (create_task (length (tce_heap w)) w1); reflexivity.
Qed.

Lemma start_transport_connection X events url w w' r :
  start_transport X events url w = (w', r) -> connection w' = connection w.
Proof.
  rewrite start_transport_unfold. cbv zeta. intros [= <- _].
  now rewrite connection_await_connect.
Qed.

(** ** The continuations of [start_negotiate] *)

Lemma then_value_token_cases {A B : Type} token (t : task_result A)
    (k : A -> world U -> world U * task_result B) w w' r :
  then_value_token token t k w = (w', r) ->
  (exists a, t = completed a /\ is_canceled token w = false /\ k a w = (w', r)) \/
  (w' = w /\
   ((exists a, t = completed a /\ is_canceled token w = true /\ r = canceled) \/
    (exists e, t = faulted e /\ r = faulted e) \/
    (t = pending /\ r = pending))).
Proof.
  unfold then_value_token. destruct t as [a|e|].
  - destruct (is_canceled token w) eqn:Hc.
    + intros [= <- <-]. right. split; [reflexivity|]. left. now exists a.
    + intros Hk. left. now exists a.
  - intros [= <- <-]. right. split; [reflexivity|]. right. left. now exists e.
  - intros [= <- <-]. right. split; [reflexivity|]. right. now right.
Qed.

Lemma negotiate_continuation_connection env url rc w :
  connection (fst (negotiate_continuation env url rc w)) = connection w.
Proof. reflexivity. Qed.

Lemma first_continuation_connection token env url rc w w' r :
  then_value_token token (completed tt)
    (fun _ => negotiate_continuation env url rc) w = (w', r) ->
  connection w' = connection w.
Proof.
  intros H. apply then_value_token_cases in H as [(a & _ & _ & H)|[-> _]]; [|reflexivity].
  now inversion H.
Qed.

Lemma transport_started_established t w w' r :
  get_connection_state w = connecting ->
  transport_started t w = (w', r) ->
  r = completed tt /\ get_connection_state w' = connected /\
  m_transport (connection w') = Some t /\
  m_start_completed_event (connection w') = m_start_completed_event (connection w).
Proof.
  unfold transport_started, change_state, get_connection_state. simpl.
  intros ->. simpl. intros [= <- <-]. repeat split.
Qed.

Lemma start_completion_cases previous_task w w' r :
  then_task previous_task start_completion w = (w', r) ->
  match previous_task with
  | completed _ => r = completed tt /\ w' = with_connection (set_start_completed_event true) w
  | faulted e => r = faulted e /\ cleaned_up w'
  | pending => r = pending /\ w' = w
  end.
Proof.
  destruct previous_task as [[]|e|]; simpl; intros [= <- <-]; split; try reflexivity.
  unfold cleaned_up, change_state_to, get_connection_state. simpl.
  match goal with |- context [decide ?P] => destruct (decide P) end; repeat split.
Qed.

(** What the second continuation leaves for the third when the connection
    is connecting, given the same of the recursive call. *)
Lemma negotiated_continuation_post X env
    (recurse : string_t -> Z -> world U -> world U * task_result unit)
    url rc response w w' r :
  (forall url0 w0 w0' r0,
     get_connection_state w0 = connecting ->
     recurse url0 (rc + 1)%Z w0 = (w0', r0) ->
     match r0 with
     | completed _ => established w0'
     | faulted _ => True
     | pending => get_connection_state w0' = connecting
     end) ->
  get_connection_state w = connecting ->
  negotiated_continuation X env recurse url rc response w = (w', r) ->
  match r with
  | completed _ =>
      get_connection_state w' = connected /\ is_Some (m_transport (connection w'))
  | faulted _ => True
  | pending => get_connection_state w' = connecting
  end.
Proof.
  intros Hrec Hst. unfold negotiated_continuation.
  destruct (negb (String.eqb (error response) "")).
  { intros [= <- <-]. exact I. }
  destruct (negb (String.eqb (response.url response) "")).
  { intros H. eapply Hrec in H.
    - destruct r; [destruct H as (? & ? & _); now split | exact I | exact H].
    - destruct (negb (String.eqb (accessToken response) "")); exact Hst. }
  destruct (negb (foundWebsockets (availableTransports response))).
  { intros [= <- <-]. exact I. }
  destruct (start_transport X (connect_events env) url _) as [w1 started] eqn:Ht.
  apply start_transport_connection in Ht.
  assert (get_connection_state w1 = connecting) as Hst1.
  { unfold get_connection_state. rewrite Ht. exact Hst. }
  destruct started as [t|e|]; simpl.
  - intros H. apply transport_started_established in H as (-> & H1 & H2 & _); [|exact Hst1].
    split; [exact H1 | rewrite H2; now eexists].
  - intros [= <- <-]. exact I.
  - intros [= <- <-]. exact Hst1.
Qed.

(** The state in which [start_negotiate] leaves a connecting connection. *)
Lemma start_negotiate_rounds_post fuel X env url rc w w' r :
  get_connection_state w = connecting ->
  start_negotiate_rounds fuel X env url rc w = (w', r) ->
  match r with
  | completed _ => established w'
  | faulted _ => cleaned_up w' \/ ((MAX_NEGOTIATE_REDIRECTS X <= rc)%Z /\ w' = w)
  | pending => get_connection_state w' = connecting
  end.
Proof.
  revert url rc w w' r. induction fuel as [|fuel IH]; intros url rc w w' r Hst;
    cbn [start_negotiate_rounds];
    destruct (Z.leb_spec (MAX_NEGOTIATE_REDIRECTS X) rc) as [Hle|Hlt];
    try (intros [= <- <-]; (right; now split) || exact Hst).
  match goal with |- context [then_value_token ?tok (completed tt) ?k ?w0] =>
    destruct (then_value_token tok (completed tt) k w0) as [w2 negotiated] eqn:H1 end.
  match goal with |- context [then_value_token ?tok negotiated ?k ?w0] =>
    destruct (then_value_token tok negotiated k w0) as [w4 previous_task] eqn:H2 end.
  intros H3.
  apply first_continuation_connection in H1. rewrite connection_interfere in H1.
  assert (get_connection_state (interfere (stop_during_negotiate env rc) w2) = connecting)
    as Hst3.
  { unfold get_connection_state. rewrite connection_interfere, H1. exact Hst. }
  apply start_completion_cases in H3.
  apply then_value_token_cases in H2
    as [(response & -> & _ & H2)|[-> [(a & -> & _ & ->)|[(e & -> & ->)|[-> ->]]]]].
  - eapply negotiated_continuation_post in H2; [| |exact Hst3].
    + destruct previous_task as [[]|e|].
      * destruct H3 as [-> ->]. destruct H2 as [Ha Hb]. repeat split; assumption.
      * destruct H3 as [-> H3]. now left.
      * destruct H3 as [-> ->]. exact H2.
    + intros url0 w0 w0' r0 Hst0 Hr. apply IH in Hr; [|exact Hst0].
      destruct r0; [exact Hr | exact I | exact Hr].
  - destruct H3 as [-> H3]. now left.
  - destruct H3 as [-> H3]. now left.
  - destruct H3 as [-> ->]. exact Hst3.
Qed.

(** ** Completion events *)

Lemma complete_length tce c w :
  length (tce_heap (complete tce c w)) = length (tce_heap w).
Proof.
  unfold complete. destruct (tce_heap w !! tce) as [[?|]|]; try reflexivity.
  simpl. apply length_insert.
Qed.

(** The first completion wins: a completed event stays as it is. *)
Lemma complete_completed tce c c' w :
  tce_heap w !! tce = Some (Some c) -> complete tce c' w = w.
Proof. unfold complete. now intros ->. Qed.

Lemma complete_pending tce c w :
  tce_heap w !! tce = Some None ->
  tce_heap (complete tce c w) !! tce = Some (Some c).
Proof.
  intros H. unfold complete. rewrite H. simpl.
  apply list_lookup_insert_eq. now apply lookup_lt_Some in H.
Qed.

Lemma create_task_complete tce c w :
  tce < length (tce_heap w) -> create_task tce (complete tce c w) <> pending.
Proof.
  intros Hlt. apply lookup_lt_is_Some in Hlt as [[c0|] H].
  - erewrite complete_completed by exact H. unfold create_task. rewrite H. now destruct c0.
  - unfold create_task. rewrite complete_pending by exact H. now destruct c.
Qed.

Lemma tce_heap_shutdown_until_wait w :
  tce_heap (fst (shutdown_until_wait w)) = tce_heap w.
Proof.
  unfold shutdown_until_wait.
  destruct (get_connection_state (log info "acquired lock in shutdown()" w)); reflexivity.
Qed.

Lemma tce_heap_process_response_callback cts response w :
  tce_heap (fst (process_response_callback cts response w)) = tce_heap w.
Proof.
  unfold process_response_callback, process_response, invoke_message_received.
  destruct (is_canceled cts w); [reflexivity |]. simpl.
  destruct (m_message_received (connection w) response (user w)) as [u [[e|]|]]; reflexivity.
Qed.

Lemma deliver_length t ev w :
  length (tce_heap (deliver t ev w)) = length (tce_heap w).
Proof.
  destruct ev as [[]| | |]; simpl;
    unfold error_callback, tce_set, tce_set_exception;
    rewrite ?complete_length, ?tce_heap_process_response_callback,
      ?tce_heap_shutdown_until_wait; try reflexivity.
  destruct (is_canceled (disconnect_cts t) w); [reflexivity | apply complete_length].
Qed.

Lemma connect_timeout_task_completed tce cts w :
  tce < length (tce_heap w) ->
  create_task tce (connect_timeout_task tce cts w) <> pending.
Proof.
  intros H. unfold connect_timeout_task, tce_set, tce_set_exception.
  destruct (is_canceled cts w); now apply create_task_complete.
Qed.

(** The wait is always over: the timeout task completes the event if
    nothing else has. *)
Lemma await_connect_completed t events w :
  connect_request_tce t < length (tce_heap w) ->
  create_task (connect_request_tce t) (await_connect t events w) <> pending.
Proof.
  revert w. induction events as [|[at_ms ev] rest IH]; intros w Hlt; simpl.
  - now apply connect_timeout_task_completed.
  - destruct (transport_connect_timeout <=? at_ms)%Z.
    + now apply connect_timeout_task_completed.
    + destruct (create_task (connect_request_tce t) (deliver t ev w)) eqn:Hd.
      * rewrite Hd. discriminate.
      * rewrite Hd. discriminate.
      * apply IH. now rewrite deliver_length.
Qed.

Lemma start_transport_not_pending X events url w w' r :
  start_transport X events url w = (w', r) -> r <> pending.
Proof.
  rewrite start_transport_unfold. cbv zeta. intros [= _ <-].
  match goal with |- context [create_task ?i (await_connect ?t ?evs ?w0)] =>
    pose proof (@await_connect_completed t evs w0) as H;
    destruct (create_task i (await_connect t evs w0)) eqn:E end; try discriminate.
  intros _. apply H; [|exact E].
  simpl. rewrite length_app. simpl. lia.
Qed.

(** ** [start] comes to an end *)

Lemma negotiated_continuation_pending X env
    (recurse : string_t -> Z -> world U -> world U * task_result unit)
    url rc response w w' :
  (forall url0 w0 w0', recurse url0 (rc + 1)%Z w0 = (w0', pending) -> unanswered env) ->
  negotiated_continuation X env recurse url rc response w = (w', pending) ->
  unanswered env.
Proof.
  intros Hrec. unfold negotiated_continuation.
  destruct (negb (String.eqb (error response) "")); [discriminate |].
  destruct (negb (String.eqb (response.url response) "")); [apply Hrec |].
  destruct (negb (foundWebsockets (availableTransports response))); [discriminate |].
  destruct (start_transport X (connect_events env) url _) as [w1 started] eqn:Ht.
  apply start_transport_not_pending in Ht.
  destruct started; simpl; try discriminate; [|congruence].
  unfold transport_started. destruct (change_state connecting connected _). discriminate.
Qed.

Lemma start_negotiate_rounds_pending fuel X env url rc w w' :
  (Z.to_nat (MAX_NEGOTIATE_REDIRECTS X - rc) < fuel)%nat ->
  start_negotiate_rounds fuel X env url rc w = (w', pending) ->
  unanswered env.
Proof.
  revert url rc w w'. induction fuel as [|fuel IH]; intros url rc w w' Hfuel; [lia |].
  cbn [start_negotiate_rounds].
  destruct (Z.leb_spec (MAX_NEGOTIATE_REDIRECTS X) rc) as [Hle|Hlt]; [discriminate |].
  match goal with |- context [then_value_token ?tok (completed tt) ?k ?w0] =>
    destruct (then_value_token tok (completed tt) k w0) as [w2 negotiated] eqn:H1 end.
  match goal with |- context [then_value_token ?tok negotiated ?k ?w0] =>
    destruct (then_value_token tok negotiated k w0) as [w4 previous_task] eqn:H2 end.
  intros H3. apply start_completion_cases in H3.
  destruct previous_task as [[]|e|]; try (destruct H3; discriminate).
  apply then_value_token_cases in H2
    as [(response & -> & _ & H2)|[-> [(a & -> & _ & [=])|[(e & -> & [=])|[-> _]]]]].
  - eapply negotiated_continuation_pending; [|exact H2].
    intros url0 w0 w0'. apply IH. lia.
  - apply then_value_token_cases in H1
      as [(a & _ & _ & H1)|[_ [(a & _ & _ & [=])|[(e & [=] & _)|[[=] _]]]]].
    unfold negotiate_continuation in H1. inversion H1 as [[Hw Hn]].
    now exists rc, url, (m_signalr_client_config
                           (connection (interfere (stop_before_negotiate env rc) w))).
Qed.

(** ** Cancellation is for good *)

Lemma keeps_canceled_refl w : keeps_canceled w w.
Proof. intros cts H. exact H. Qed.

Lemma keeps_canceled_trans w1 w2 w3 :
  keeps_canceled w1 w2 -> keeps_canceled w2 w3 -> keeps_canceled w1 w3.
Proof. intros H12 H23 cts H. apply H23, H12, H. Qed.

Lemma keeps_canceled_same_heap w w' : cts_heap w' = cts_heap w -> keeps_canceled w w'.
Proof. intros Heq cts. unfold is_canceled. now rewrite Heq. Qed.

Lemma keeps_canceled_cancel cts0 w : keeps_canceled w (cancel cts0 w).
Proof.
  intros cts. unfold is_canceled, cancel. simpl.
  destruct (cts_heap w !! cts) as [b|] eqn:H; simpl; [|discriminate].
  intros ->. destruct (decide (cts0 = cts)) as [->|Hne].
  - rewrite list_lookup_insert_eq; [reflexivity|]. now apply lookup_lt_Some in H.
  - rewrite list_lookup_insert_ne by exact Hne. now rewrite H.
Qed.

Lemma keeps_canceled_new_source w :
  keeps_canceled w (snd (new_cancellation_token_source w)).
Proof.
  intros cts. unfold is_canceled. simpl.
  destruct (cts_heap w !! cts) as [b|] eqn:H; simpl; [|discriminate].
  intros ->. now rewrite (lookup_app_l_Some _ _ _ _ H).
Qed.

Lemma cts_heap_complete tce c w : cts_heap (complete tce c w) = cts_heap w.
Proof. unfold complete. destruct (tce_heap w !! tce) as [[?|]|]; reflexivity. Qed.

Lemma keeps_canceled_shutdown_until_wait w :
  keeps_canceled w (fst (shutdown_until_wait w)).
Proof.
  unfold shutdown_until_wait.
  destruct (get_connection_state (log info "acquired lock in shutdown()" w)); simpl;
    try (now apply keeps_canceled_same_heap).
  all: eapply keeps_canceled_trans; [|apply keeps_canceled_cancel];
    now apply keeps_canceled_same_heap.
Qed.

Lemma keeps_canceled_interfere b w : keeps_canceled w (interfere b w).
Proof.
  destruct b; [apply keeps_canceled_shutdown_until_wait | apply keeps_canceled_refl].
Qed.

Lemma cts_heap_invoke_message_received message w :
  cts_heap (fst (invoke_message_received message w)) = cts_heap w.
Proof.
  unfold invoke_message_received.
  destruct (m_message_received (connection w) message (user w)) as [u [[e|]|]]; reflexivity.
Qed.

Lemma cts_heap_process_response_callback cts response w :
  cts_heap (fst (process_response_callback cts response w)) = cts_heap w.
Proof.
  unfold process_response_callback, process_response.
  destruct (is_canceled cts w); [reflexivity |].
  now rewrite cts_heap_invoke_message_received.
Qed.

Lemma cts_heap_error_callback tce cts e w :
  cts_heap (error_callback tce cts e w) = cts_heap w.
Proof.
  unfold error_callback, tce_set_exception.
  destruct (is_canceled cts w); [reflexivity | apply cts_heap_complete].
Qed.

Lemma cts_heap_connect_timeout_task tce cts w :
  cts_heap (connect_timeout_task tce cts w) = cts_heap w.
Proof.
  unfold connect_timeout_task, tce_set, tce_set_exception.
  destruct (is_canceled cts w); apply cts_heap_complete.
Qed.

Lemma cts_heap_connect_task_continuation tce r w :
  cts_heap (connect_task_continuation tce r w) = cts_heap w.
Proof.
  unfold connect_task_continuation, tce_set, tce_set_exception.
  destruct r; try reflexivity; now rewrite cts_heap_complete.
Qed.

Lemma keeps_canceled_deliver t ev w : keeps_canceled w (deliver t ev w).
Proof.
  destruct ev; simpl.
  - apply keeps_canceled_same_heap, cts_heap_connect_task_continuation.
  - apply keeps_canceled_same_heap, cts_heap_error_callback.
  - apply keeps_canceled_same_heap, cts_heap_process_response_callback.
  - apply keeps_canceled_shutdown_until_wait.
Qed.

Lemma keeps_canceled_await_connect t events w :
  keeps_canceled w (await_connect t events w).
Proof.
  revert w. induction events as [|[at_ms ev] rest IH]; intros w; simpl.
  - apply keeps_canceled_same_heap, cts_heap_connect_timeout_task.
  - destruct (transport_connect_timeout <=? at_ms)%Z.
    + apply keeps_canceled_same_heap, cts_heap_connect_timeout_task.
    + destruct (create_task (connect_request_tce t) (deliver t ev w));
        try apply keeps_canceled_deliver.
      eapply keeps_canceled_trans; [apply keeps_canceled_deliver | apply IH].
Qed.

Lemma keeps_canceled_start_transport X events url w w' r :
  start_transport X events url w = (w', r) -> keeps_canceled w w'.
Proof.
  rewrite start_transport_unfold. cbv zeta. intros [= <- _].
  eapply keeps_canceled_trans; [|apply keeps_canceled_await_connect].
  now apply keeps_canceled_same_heap.
Qed.

Lemma keeps_canceled_start_completion previous_task w w' r :
  then_task previous_task start_completion w = (w', r) -> keeps_canceled w w'.
Proof.
  destruct previous_task as [[]|e|]; simpl; intros [= <- _];
    apply keeps_canceled_same_heap; try reflexivity.
  unfold change_state_to. simpl.
  match goal with |- context [decide ?P] => destruct (decide P) end;
    destruct (is_task_canceled e); reflexivity.
Qed.

Lemma keeps_canceled_negotiated_continuation X env
    (recurse : string_t -> Z -> world U -> world U * task_result unit)
    url rc response w w' r :
  (forall url0 w0 w0' r0, recurse url0 (rc + 1)%Z w0 = (w0', r0) -> keeps_canceled w0 w0') ->
  negotiated_continuation X env recurse url rc response w = (w', r) ->
  keeps_canceled w w'.
Proof.
  intros Hrec. unfold negotiated_continuation.
  destruct (negb (String.eqb (error response) "")).
  { intros [= <- _]. apply keeps_canceled_refl. }
  destruct (negb (String.eqb (response.url response) "")).
  { intros H. apply Hrec in H. eapply keeps_canceled_trans; [|exact H].
    destruct (negb (String.eqb (accessToken response) ""));
      now apply keeps_canceled_same_heap. }
  destruct (negb (foundWebsockets (availableTransports response))).
  { intros [= <- _]. now apply keeps_canceled_same_heap. }
  destruct (start_transport X (connect_events env) url _) as [w1 started] eqn:Ht.
  apply keeps_canceled_start_transport in Ht.
  assert (keeps_canceled w w1) as Hw1.
  { eapply keeps_canceled_trans; [|exact Ht]. now apply keeps_canceled_same_heap. }
  destruct started as [t|e|]; simpl; try (intros [= <- _]; exact Hw1).
  unfold transport_started, change_state.
  match goal with |- context [decide ?P] => destruct (decide P) end;
    intros [= <- _]; (eapply keeps_canceled_trans; [exact Hw1|]);
    now apply keeps_canceled_same_heap.
Qed.

Lemma keeps_canceled_start_negotiate_rounds fuel X env url rc w w' r :
  start_negotiate_rounds fuel X env url rc w = (w', r) -> keeps_canceled w w'.
Proof.
  revert url rc w w' r. induction fuel as [|fuel IH]; intros url rc w w' r;
    cbn [start_negotiate_rounds];
    destruct (MAX_NEGOTIATE_REDIRECTS X <=? rc)%Z;
    try (intros [= <- _]; apply keeps_canceled_refl).
  match goal with |- context [then_value_token ?tok (completed tt) ?k ?w0] =>
    destruct (then_value_token tok (completed tt) k w0) as [w2 negotiated] eqn:H1 end.
  match goal with |- context [then_value_token ?tok negotiated ?k ?w0] =>
    destruct (then_value_token tok negotiated k w0) as [w4 previous_task] eqn:H2 end.
  intros H3. apply keeps_canceled_start_completion in H3.
  assert (keeps_canceled w w2) as Hw2.
  { eapply keeps_canceled_trans; [apply keeps_canceled_interfere|].
    apply then_value_token_cases in H1 as [(a & _ & _ & H1)|[-> _]];
      [|apply keeps_canceled_refl].
    inversion H1. now apply keeps_canceled_same_heap. }
  assert (keeps_canceled w2 w4) as Hw4.
  { eapply keeps_canceled_trans; [apply keeps_canceled_interfere|].
    apply then_value_token_cases in H2 as [(a & _ & _ & H2)|[-> _]];
      [|apply keeps_canceled_refl].
    eapply keeps_canceled_negotiated_continuation; [|exact H2].
    intros url0 w0 w0' r0. apply IH. }
  eapply keeps_canceled_trans; [exact Hw2|].
  eapply keeps_canceled_trans; [exact Hw4|exact H3].
Qed.

Lemma keeps_canceled_start X env w : keeps_canceled w (fst (start X env w)).
Proof.
  unfold start, change_state.
  destruct (decide (get_connection_state w = disconnected)); simpl;
    [|apply keeps_canceled_refl].
  match goal with |- context [start_negotiate X env ?u ?rc ?w0] =>
    destruct (start_negotiate X env u rc w0) as [w' r] eqn:H end.
  apply keeps_canceled_start_negotiate_rounds in H. simpl.
  eapply keeps_canceled_trans; [|exact H].
  intros cts. unfold is_canceled. simpl.
  destruct (cts_heap w !! cts) as [b|] eqn:Hc; simpl; [|discriminate].
  intros ->. now rewrite (lookup_app_l_Some _ _ _ _ Hc).
Qed.

(** ** Stopping *)

(** [shutdown] by the state it finds. *)
Lemma shutdown_unfold disconnect_task w :
  shutdown disconnect_task w =
    let w0 := log info "acquired lock in shutdown()" w in
    match get_connection_state w with
    | disconnected => returns (w0, completed tt)
    | disconnecting => returns (w0, canceled)
    | _ =>
        let w1 := cancel (m_disconnect_cts (connection w)) w0 in
        if m_start_completed_event (connection w) then
          match m_transport (connection w) with
          | Some t =>
              returns (record_transport_call t call_disconnect
                         (fst (change_state_to disconnecting w1)), disconnect_task)
          | None => null_dereference
          end
        else never_returns
    end.
Proof.
  unfold shutdown, shutdown_until_wait, get_connection_state. simpl.
  destruct (m_connection_state (connection w)) eqn:Hs; simpl; try reflexivity;
    destruct (m_start_completed_event (connection w)); simpl; try reflexivity;
    rewrite Hs; simpl; unfold change_state_to, get_connection_state; simpl; rewrite Hs;
    simpl; destruct (m_transport (connection w)); reflexivity.
Qed.

Lemma shutdown_state disconnect_task w w' r :
  shutdown disconnect_task w = returns (w', r) ->
  (get_connection_state w' = get_connection_state w /\
   m_transport (connection w') = m_transport (connection w)) \/
  get_connection_state w' = disconnecting.
Proof.
  rewrite shutdown_unfold. cbv zeta.
  destruct (get_connection_state w) eqn:Hs;
    try (intros [= <- _]; left; split; [exact Hs | reflexivity]);
    destruct (m_start_completed_event (connection w)); try discriminate;
    destruct (m_transport (connection w)); try discriminate;
    intros [= <- _]; right; unfold change_state_to, get_connection_state; simpl;
    match goal with |- context [decide ?P] => destruct (decide P) end; reflexivity.
Qed.

Lemma keeps_canceled_shutdown disconnect_task w w' r :
  shutdown disconnect_task w = returns (w', r) -> keeps_canceled w w'.
Proof.
  rewrite shutdown_unfold. cbv zeta.
  destruct (get_connection_state w) eqn:Hs;
    try (intros [= <- _]; now apply keeps_canceled_same_heap);
    destruct (m_start_completed_event (connection w)); try discriminate;
    destruct (m_transport (connection w)); try discriminate;
    intros [= <- _];
    (eapply keeps_canceled_trans;
      [apply (keeps_canceled_cancel (m_disconnect_cts (connection w)))|]);
    apply keeps_canceled_same_heap; unfold change_state_to; simpl;
    match goal with |- context [decide ?P] => destruct (decide P) end; reflexivity.
Qed.

Lemma invoke_disconnected_frame w :
  connection (fst (invoke_disconnected w)) = connection w /\
  cts_heap (fst (invoke_disconnected w)) = cts_heap w /\
  tce_heap (fst (invoke_disconnected w)) = tce_heap w /\
  negotiate_calls (fst (invoke_disconnected w)) = negotiate_calls w /\
  transport_calls (fst (invoke_disconnected w)) = transport_calls w /\
  snd (invoke_disconnected w) = None.
Proof.
  unfold invoke_disconnected.
  destruct (m_disconnected (connection w) (user w)) as [u [[e|]|]]; repeat split.
Qed.

(** The continuation of [stop] by the state it finds. *)
Lemma stop_continuation_unfold w :
  stop_continuation w =
    let w1 :=
      if decide (get_connection_state w = disconnecting) then
        with_connection (set_transport None)
          (handle_connection_state_change disconnecting disconnected
             (with_connection (set_connection_state disconnected) w))
      else w in
    (fst (invoke_disconnected w1), completed tt).
Proof.
  unfold stop_continuation, change_state.
  destruct (decide (get_connection_state w = disconnecting)); cbv zeta;
    match goal with |- context [invoke_disconnected ?w0] =>
      pose proof (invoke_disconnected_frame w0) as (_ & _ & _ & _ & _ & H);
      destruct (invoke_disconnected w0) as [w2 escaped] end;
    simpl in H; subst escaped; reflexivity.
Qed.

Lemma stop_continuation_invariant w w' r :
  transport_invariant w -> stop_continuation w = (w', r) -> transport_invariant w'.
Proof.
  rewrite stop_continuation_unfold. cbv zeta. intros Hinv [= <- _].
  unfold transport_invariant, get_connection_state in *.
  match goal with |- context [invoke_disconnected ?w0] =>
    destruct (invoke_disconnected_frame w0) as (-> & _) end.
  destruct (decide (m_connection_state (connection w) = disconnecting)); [reflexivity|].
  exact Hinv.
Qed.

Lemma keeps_canceled_stop_continuation w w' r :
  stop_continuation w = (w', r) -> keeps_canceled w w'.
Proof.
  rewrite stop_continuation_unfold. cbv zeta. intros [= <- _].
  apply keeps_canceled_same_heap.
  match goal with |- context [invoke_disconnected ?w0] =>
    destruct (invoke_disconnected_frame w0) as (_ & -> & _) end.
  destruct (decide (get_connection_state w = disconnecting)); reflexivity.
Qed.

Lemma shutdown_invariant disconnect_task w w' r :
  transport_invariant w -> shutdown disconnect_task w = returns (w', r) ->
  transport_invariant w'.
Proof.
  intros Hinv H. apply shutdown_state in H as [[Hs Ht]|Hs]; unfold transport_invariant.
  - rewrite Hs, Ht. exact Hinv.
  - rewrite Hs. discriminate.
Qed.

Lemma stop_invariant disconnect_task w w' r :
  transport_invariant w -> stop disconnect_task w = returns (w', r) ->
  transport_invariant w'.
Proof.
  intros Hinv. unfold stop.
  destruct (shutdown disconnect_task (log info "stopping connection" w))
    as [[w1 shutdown_task]| |] eqn:Hsh; try discriminate.
  apply shutdown_invariant in Hsh; [|exact Hinv].
  intros [= H]. destruct shutdown_task as [[]|e|]; simpl in H.
  - now apply stop_continuation_invariant in H.
  - now inversion H; subst.
  - now inversion H; subst.
Qed.

Lemma keeps_canceled_stop disconnect_task w w' r :
  stop disconnect_task w = returns (w', r) -> keeps_canceled w w'.
Proof.
  unfold stop.
  destruct (shutdown disconnect_task (log info "stopping connection" w))
    as [[w1 shutdown_task]| |] eqn:Hsh; try discriminate.
  apply keeps_canceled_shutdown in Hsh.
  assert (keeps_canceled w w1) as Hw1.
  { eapply keeps_canceled_trans; [|exact Hsh]. now apply keeps_canceled_same_heap. }
  intros [= H]. destruct shutdown_task as [[]|e|]; simpl in H.
  - apply keeps_canceled_stop_continuation in H.
    eapply keeps_canceled_trans; [exact Hw1 | exact H].
  - now inversion H; subst.
  - now inversion H; subst.
Qed.

(** ** Sending and the setters *)

Lemma send_connection send_task data w :
  connection (fst (send send_task data w)) = connection w.
Proof.
  unfold send. destruct (m_transport (connection w)) as [t|]; [|reflexivity].
  destruct (decide (get_connection_state w = connected)) as [Hc|Hc]; [|reflexivity].
  destruct send_task as [[]|e'|]; reflexivity.
Qed.

Lemma send_cts_heap send_task data w :
  cts_heap (fst (send send_task data w)) = cts_heap w.
Proof.
  unfold send. destruct (m_transport (connection w)) as [t|]; [|reflexivity].
  destruct (decide (get_connection_state w = connected)) as [Hc|Hc]; [|reflexivity].
  destruct send_task as [[]|e'|]; reflexivity.
Qed.

Lemma setter_frame (update : connection_impl U -> connection_impl U) message w :
  (forall c, m_connection_state (update c) = m_connection_state c) ->
  (forall c, m_transport (update c) = m_transport c) ->
  let w' := fst (match ensure_disconnected message w with
                 | Some e => (w, Some e)
                 | None => (with_connection update w, None)
                 end) in
  get_connection_state w' = get_connection_state w /\
  m_transport (connection w') = m_transport (connection w) /\
  cts_heap w' = cts_heap w.
Proof.
  intros Hs Ht. cbv zeta. destruct (ensure_disconnected message w); simpl.
  - repeat split.
  - unfold get_connection_state. simpl. rewrite Hs, Ht. repeat split.
Qed.

(** ** Every operation *)

Lemma perform_invariant op w w' :
  transport_invariant w -> perform op w = Some w' -> transport_invariant w'.
Proof.
  intros Hinv. destruct op; simpl.
  - intros [= <-]. unfold start, change_state.
    destruct (decide (get_connection_state w = disconnected)) as [Hd|Hd]; simpl;
      [|exact Hinv].
    match goal with |- context [start_negotiate X env ?u ?rc ?w0] =>
      destruct (start_negotiate X env u rc w0) as [w1 r] eqn:H end.
    apply start_negotiate_rounds_post in H; [|reflexivity]. simpl.
    unfold transport_invariant.
    destruct r as [[]|e|].
    + destruct H as (-> & _). discriminate.
    + destruct H as [(_ & H & _)|[_ ->]]; [intros _; exact H | discriminate].
    + rewrite H. discriminate.
  - destruct (stop disconnect_task w) as [[w1 r]| |] eqn:H; try discriminate.
    intros [= <-]. eapply stop_invariant; eassumption.
  - destruct (shutdown disconnect_task w) as [[w1 r]| |] eqn:H; try discriminate.
    intros [= <-]. eapply shutdown_invariant; eassumption.
  - intros [= <-]. unfold transport_invariant, get_connection_state.
    rewrite send_connection. exact Hinv.
  - intros [= <-].
    destruct (@setter_frame (set_message_received_callback message_received)
      "cannot set the callback when the connection is not in the disconnected state. " w)
      as (Hs & Ht & _); try reflexivity.
    unfold transport_invariant, set_message_received. rewrite Hs, Ht. exact Hinv.
  - intros [= <-].
    destruct (@setter_frame (set_disconnected_callback disconnected0)
      "cannot set the disconnected callback when the connection is not in the disconnected state. " w)
      as (Hs & Ht & _); try reflexivity.
    unfold transport_invariant, set_disconnected. rewrite Hs, Ht. exact Hinv.
  - intros [= <-].
    destruct (@setter_frame (set_signalr_client_config config)
      "cannot set client config when the connection is not in the disconnected state. " w)
      as (Hs & Ht & _); try reflexivity.
    unfold transport_invariant, set_client_config. rewrite Hs, Ht. exact Hinv.
  - intros [= <-]. unfold transport_invariant, get_connection_state.
    rewrite connection_process_response_callback. exact Hinv.
  - intros [= <-]. unfold transport_invariant, get_connection_state.
    rewrite connection_error_callback. exact Hinv.
  - intros [= <-]. unfold transport_invariant, get_connection_state.
    rewrite connection_connect_task_continuation. exact Hinv.
  - intros [= <-]. unfold transport_invariant, get_connection_state.
    rewrite connection_connect_timeout_task. exact Hinv.
Qed.

Lemma perform_keeps_canceled op w w' :
  perform op w = Some w' -> keeps_canceled w w'.
Proof.
  destruct op; simpl.
  - intros [= <-]. apply keeps_canceled_start.
  - destruct (stop disconnect_task w) as [[w1 r]| |] eqn:H; try discriminate.
    intros [= <-]. eapply keeps_canceled_stop; eassumption.
  - destruct (shutdown disconnect_task w) as [[w1 r]| |] eqn:H; try discriminate.
    intros [= <-]. eapply keeps_canceled_shutdown; eassumption.
  - intros [= <-]. apply keeps_canceled_same_heap, send_cts_heap.
  - intros [= <-]. apply keeps_canceled_same_heap.
    now destruct (@setter_frame (set_message_received_callback message_received)
      "cannot set the callback when the connection is not in the disconnected state. " w)
      as (_ & _ & ?).
  - intros [= <-]. apply keeps_canceled_same_heap.
    now destruct (@setter_frame (set_disconnected_callback disconnected0)
      "cannot set the disconnected callback when the connection is not in the disconnected state. " w)
      as (_ & _ & ?).
  - intros [= <-]. apply keeps_canceled_same_heap.
    now destruct (@setter_frame (set_signalr_client_config config)
      "cannot set client config when the connection is not in the disconnected state. " w)
      as (_ & _ & ?).
  - intros [= <-]. apply keeps_canceled_same_heap, cts_heap_process_response_callback.
  - intros [= <-]. apply keeps_canceled_same_heap, cts_heap_error_callback.
  - intros [= <-]. apply keeps_canceled_same_heap, cts_heap_connect_task_continuation.
  - intros [= <-]. apply keeps_canceled_same_heap, cts_heap_connect_timeout_task.
Qed.

Lemma perform_all_invariant ops w w' :
  transport_invariant w -> perform_all ops w = Some w' -> transport_invariant w'.
Proof.
  revert w. induction ops as [|op rest IH]; intros w Hinv; simpl.
  - now intros [= <-].
  - destruct (perform op w) as [w1|] eqn:H; [|discriminate].
    apply IH. eapply perform_invariant; eassumption.
Qed.

Lemma perform_all_keeps_canceled ops w w' :
  perform_all ops w = Some w' -> keeps_canceled w w'.
Proof.
  revert w. induction ops as [|op rest IH]; intros w; simpl.
  - intros [= <-]. apply keeps_canceled_refl.
  - destruct (perform op w) as [w1|] eqn:H; [|discriminate].
    intros Hrest. eapply keeps_canceled_trans; [|apply IH, Hrest].
    now apply perform_keeps_canceled in H.
Qed.

(** * The claims *)

(** C1 (amended). On a connection in any state other than disconnected
    [start] fails at once with the invalid-state error whose message is
    the fixed text [start_rejected_message], whatever the state, and the
    world is left as it was: state, transport handle, session identifiers,
    cancellation source and everything else are unchanged. *)
Theorem start_rejected_unless_disconnected X env w :
  get_connection_state w <> disconnected ->
  start X env w = (w, faulted (signalr_exception start_rejected_message)).
Proof.
  intros Hs. unfold start, change_state.
  destruct (decide (get_connection_state w = disconnected)); [contradiction | reflexivity].
Qed.

(** C2. A [start] on a disconnected connection that ends in failure, at
    whatever stage, leaves the connection disconnected, the transport
    handle null and the start-completed event set, and the failure is the
    result of [start]; a start that succeeds leaves it connected with a
    transport; and [start] comes to an end unless the server leaves a
    negotiate request unanswered. *)
Theorem failed_start_is_undone X env w w' r :
  (0 < MAX_NEGOTIATE_REDIRECTS X)%Z ->
  get_connection_state w = disconnected ->
  start X env w = (w', r) ->
  match r with
  | faulted _ =>
      get_connection_state w' = disconnected /\
      m_transport (connection w') = None /\
      m_start_completed_event (connection w') = true
  | completed _ =>
      get_connection_state w' = connected /\
      is_Some (m_transport (connection w')) /\
      m_start_completed_event (connection w') = true
  | pending => unanswered env
  end.
Proof.
  intros Hmax Hs. unfold start, change_state.
  destruct (decide (get_connection_state w = disconnected)) as [_|Hd]; [|contradiction].
  simpl. unfold start_negotiate. intros H.
  destruct r as [[]|e|].
  - apply start_negotiate_rounds_post in H; [exact H | reflexivity].
  - apply start_negotiate_rounds_post in H as [H|[H _]]; [exact H | lia | reflexivity].
  - apply start_negotiate_rounds_pending in H; [exact H | lia].
Qed.

(** C3. [shutdown] and [stop] on a disconnected connection succeed without
    a call on any transport and without touching the connection; on a
    disconnecting connection they return the canceled task and change
    nothing but the log: the continuation of [stop] that nulls the
    transport handle and calls the disconnected callback does not run. *)
Theorem stop_is_idempotent disconnect_task w :
  (get_connection_state w = disconnected ->
     shutdown disconnect_task w =
       returns (log info "acquired lock in shutdown()" w, completed tt) /\
     exists w',
       stop disconnect_task w = returns (w', completed tt) /\
       connection w' = connection w /\
       cts_heap w' = cts_heap w /\
       tce_heap w' = tce_heap w /\
       negotiate_calls w' = negotiate_calls w /\
       transport_calls w' = transport_calls w) /\
  (get_connection_state w = disconnecting ->
     shutdown disconnect_task w =
       returns (log info "acquired lock in shutdown()" w, canceled) /\
     stop disconnect_task w =
       returns (log info "acquired lock in shutdown()"
                  (log info "stopping connection" w), canceled)).
Proof.
  split; intros Hs.
  - split; [rewrite shutdown_unfold; cbv zeta; now rewrite Hs |].
    unfold stop. rewrite shutdown_unfold. cbv zeta.
    change (get_connection_state (log info "stopping connection" w))
      with (get_connection_state w).
    rewrite Hs. cbn [then_value]. rewrite stop_continuation_unfold. cbv zeta.
    eexists. split; [reflexivity |].
    match goal with |- context [decide ?P] => destruct (decide P) as [Hd|Hd] end.
    { exfalso. revert Hd. unfold get_connection_state in *. simpl. rewrite Hs. discriminate. }
    match goal with |- context [invoke_disconnected ?w0] =>
      destruct (invoke_disconnected_frame w0) as (-> & -> & -> & -> & -> & _) end.
    repeat split.
  - split; [rewrite shutdown_unfold; cbv zeta; now rewrite Hs |].
    unfold stop. rewrite shutdown_unfold. cbv zeta.
    change (get_connection_state (log info "stopping connection" w))
      with (get_connection_state w).
    now rewrite Hs.
Qed.

(** Operations that run one after another. A connection as constructed
    has no transport; every operation that returns keeps the invariant
    that a disconnected connection has a null transport handle (a
    transport handle that is not null implies the state connecting,
    connected or disconnecting); so the invariant holds after any sequence
    of operations on a constructed connection, each one run to its end
    before the next begins. *)
Theorem transport_handle_invariant :
  (forall url (u0 : U), transport_invariant (create url u0)) /\
  (forall op w w',
     transport_invariant w -> perform op w = Some w' -> transport_invariant w') /\
  (forall url (u0 : U) ops w',
     perform_all ops (create url u0) = Some w' -> transport_invariant w').
Proof.
  split; [|split].
  - intros url u0 _. reflexivity.
  - apply perform_invariant.
  - intros url u0 ops w'. apply perform_all_invariant. intros _. reflexivity.
Qed.

(** C5. [send] reads the transport handle once; when the state is not
    connected or the handle is null it fails with the not-connected error
    that names the current state and the world is unchanged (no call on a
    transport); otherwise it logs, calls [send] on that transport, and the
    task of the transport is the result, an exception of it being logged
    and passed on. *)
Theorem send_only_when_connected send_task data w :
  (get_connection_state w <> connected \/ m_transport (connection w) = None ->
     send send_task data w =
       (w, faulted (signalr_exception
          ("cannot send data when the connection is not in the connected state. current connection state: "
             +:+ translate_connection_state (get_connection_state w))))) /\
  (forall t,
     get_connection_state w = connected ->
     m_transport (connection w) = Some t ->
     send send_task data w =
       let w1 := record_transport_call t (call_send data)
                   (log info ("sending data: " +:+ data) w) in
       match send_task with
       | faulted e => (log errors ("error sending data: " +:+ what e) w1, faulted e)
       | _ => (w1, send_task)
       end).
Proof.
  split.
  - intros H. unfold send. destruct (m_transport (connection w)) as [t|]; [|reflexivity].
    destruct (decide (get_connection_state w = connected)); [|reflexivity].
    destruct H as [H|H]; [contradiction | discriminate].
  - intros t Hs Ht. unfold send. rewrite Ht.
    destruct (decide (get_connection_state w = connected)); [|contradiction].
    destruct send_task as [[]|e'|]; reflexivity.
Qed.

(** C6. The timeout task sleeps 5000 ms; when it runs on an event that is
    not completed it completes it without error if the captured
    cancellation source is canceled and with the timed-out error
    otherwise; the wait ends with the timeout task when nothing happened
    before 5000 ms; and once the event is completed neither the timeout
    task nor a late connect result nor a late error callback changes it,
    so a connect that succeeded stays succeeded. *)
Theorem connect_race_first_completion_wins t w :
  transport_connect_timeout = 5000%Z /\
  (tce_heap w !! connect_request_tce t = Some None ->
     create_task (connect_request_tce t)
       (connect_timeout_task (connect_request_tce t) (disconnect_cts t) w) =
     if is_canceled (disconnect_cts t) w then completed tt
     else faulted (signalr_exception "transport timed out when trying to connect")) /\
  (forall at_ms ev rest,
     (5000 <= at_ms)%Z ->
     await_connect t ((at_ms, ev) :: rest) w =
       connect_timeout_task (connect_request_tce t) (disconnect_cts t) w) /\
  await_connect t [] w = connect_timeout_task (connect_request_tce t) (disconnect_cts t) w /\
  (forall at_ms rest,
     (at_ms < 5000)%Z ->
     tce_heap w !! connect_request_tce t = Some None ->
     create_task (connect_request_tce t)
       (await_connect t ((at_ms, connect_finished (completed tt)) :: rest) w) =
     completed tt) /\
  (forall c,
     tce_heap w !! connect_request_tce t = Some (Some c) ->
     connect_timeout_task (connect_request_tce t) (disconnect_cts t) w = w /\
     (forall connect_task,
        tce_heap (connect_task_continuation (connect_request_tce t) connect_task w) =
        tce_heap w) /\
     (forall e,
        tce_heap (error_callback (connect_request_tce t) (disconnect_cts t) e w) =
        tce_heap w)).
Proof.
  split; [reflexivity |]. split; [|split; [|split; [|split]]].
  - intros H. unfold connect_timeout_task, tce_set, tce_set_exception, create_task.
    destruct (is_canceled (disconnect_cts t) w); now rewrite complete_pending.
  - intros at_ms ev rest H. simpl.
    destruct (Z.leb_spec transport_connect_timeout at_ms) as [_|Hlt]; [reflexivity |].
    unfold transport_connect_timeout in Hlt. lia.
  - reflexivity.
  - intros at_ms rest Hlt H. simpl.
    destruct (Z.leb_spec transport_connect_timeout at_ms) as [Hle|_].
    { unfold transport_connect_timeout in Hle. lia. }
    assert (create_task (connect_request_tce t) (tce_set (connect_request_tce t) w)
            = completed tt) as E.
    { unfold tce_set, create_task. now rewrite complete_pending. }
    cbn [connect_task_continuation]. rewrite E. exact E.
  - intros c H. split; [|split].
    + unfold connect_timeout_task, tce_set, tce_set_exception.
      destruct (is_canceled (disconnect_cts t) w); eapply complete_completed, H.
    + intros [[]|e|]; unfold connect_task_continuation, tce_set, tce_set_exception;
        try reflexivity.
      * now erewrite complete_completed by exact H.
      * unfold complete. simpl. now rewrite H.
    + intros e. unfold error_callback, tce_set_exception.
      destruct (is_canceled (disconnect_cts t) w); [reflexivity |].
      now erewrite complete_completed by exact H.
Qed.

(** C7. Once the cancellation source that the callbacks of a transport
    captured is canceled, it stays canceled through every later operation
    (a restart included), and each message or error that the transport
    delivers is logged and dropped: the consumer, the connection and the
    completion events are as before. *)
Theorem stale_callbacks_are_dropped t w ops w' response e :
  is_canceled (disconnect_cts t) w = true ->
  perform_all ops w = Some w' ->
  process_response_callback (disconnect_cts t) response w' =
    (log info
       ("ignoring stray message received after connection was restarted. message: "
          +:+ response) w', None) /\
  error_callback (connect_request_tce t) (disconnect_cts t) e w' =
    log info
      ("ignoring stray error received after connection was restarted. error: "
         +:+ what e) w' /\
  user (fst (process_response_callback (disconnect_cts t) response w')) = user w' /\
  connection (fst (process_response_callback (disconnect_cts t) response w')) =
    connection w' /\
  tce_heap (error_callback (connect_request_tce t) (disconnect_cts t) e w') = tce_heap w' /\
  connection (error_callback (connect_request_tce t) (disconnect_cts t) e w') =
    connection w'.
Proof.
  intros Hc Hops. apply perform_all_keeps_canceled in Hops. apply Hops in Hc.
  unfold process_response_callback, error_callback. rewrite Hc. repeat split.
Qed.

(** C8. With the redirect count at the bound [start_negotiate] fails with
    the redirect-limit error and the world is unchanged (no negotiate
    call); on a response that carries a url it calls itself with that url
    and the count plus one, after writing [Bearer <token>] under
    [Authorization] into the headers of the client configuration when the
    response carries an access token. *)
Theorem negotiate_follows_redirects X env url rc w :
  ((MAX_NEGOTIATE_REDIRECTS X <= rc)%Z ->
     start_negotiate X env url rc w =
       (w, faulted (signalr_exception "Negotiate redirection limit exceeded."))) /\
  (forall response,
     (rc < MAX_NEGOTIATE_REDIRECTS X)%Z ->
     is_canceled (m_disconnect_cts (connection w)) w = false ->
     stop_before_negotiate env rc = false ->
     stop_during_negotiate env rc = false ->
     negotiate env rc url (m_signalr_client_config (connection w)) = completed response ->
     error response = "" ->
     response.url response <> "" ->
     let w1 := record_negotiate url (m_signalr_client_config (connection w)) w in
     let w2 :=
       if String.eqb (accessToken response) "" then w1
       else with_connection (set_authorization (accessToken response)) w1 in
     start_negotiate X env url rc w =
       (let (w3, previous_task) :=
          start_negotiate X env (response.url response) (rc + 1)%Z w2 in
        then_task previous_task start_completion w3) /\
     (accessToken response <> "" ->
        http_headers (m_signalr_client_config (connection w2)) =
          <["Authorization" := "Bearer " +:+ accessToken response]>
            (http_headers (m_signalr_client_config (connection w))))).
Proof.
  split.
  - intros Hle. unfold start_negotiate. cbn [start_negotiate_rounds].
    destruct (Z.leb_spec (MAX_NEGOTIATE_REDIRECTS X) rc); [reflexivity | lia].
  - intros response Hlt Hc Hb Hd Hn He Hu w1 w2. split.
    + unfold start_negotiate at 1. cbn [start_negotiate_rounds].
      destruct (Z.leb_spec (MAX_NEGOTIATE_REDIRECTS X) rc) as [Hle|_]; [lia |].
      rewrite Hb, Hd. cbn [interfere then_value_token]. rewrite Hc.
      unfold negotiate_continuation. rewrite Hn. cbn [interfere then_value_token].
      change (is_canceled (m_disconnect_cts (connection w))
                (record_negotiate url (m_signalr_client_config (connection w)) w))
        with (is_canceled (m_disconnect_cts (connection w)) w).
      rewrite Hc. unfold negotiated_continuation. rewrite He.
      apply String.eqb_neq in Hu. rewrite Hu. cbn [String.eqb negb].
      replace (Z.to_nat (MAX_NEGOTIATE_REDIRECTS X - rc))
        with (S (Z.to_nat (MAX_NEGOTIATE_REDIRECTS X - (rc + 1)))) by lia.
      fold w1. unfold start_negotiate, w2.
      destruct (String.eqb (accessToken response) ""); reflexivity.
    + intros Ht. apply String.eqb_neq in Ht. unfold w2. rewrite Ht. reflexivity.
Qed.

(** C9. Whatever the on-message callback or the on-disconnected callback
    throws, nothing leaves [invoke_message_received], [process_response],
    the message callback given to the transport, or the continuation of
    [stop]: the throw is logged as an error, the connection object is not
    touched by it, and [stop] completes whenever [shutdown] did.

    The message callback of a live session runs the consumer's callback
    once on the consumer's state and adds to the log the message entry and
    then the error entry of what was thrown. When [shutdown] completes,
    [stop] completes too, whatever the on-disconnected callback threw: it
    ran that callback once on the consumer's state, added to the log the
    state change (when the connection was disconnecting) and then the error
    entry of what was thrown, left the state and the transport handle as
    the state change alone leaves them, and touched nothing else. *)
Theorem callback_exceptions_are_contained cts message disconnect_task w :
  snd (invoke_message_received message w) = None /\
  snd (process_response message w) = None /\
  snd (process_response_callback cts message w) = None /\
  connection (fst (process_response_callback cts message w)) = connection w /\
  (forall x,
     snd (m_message_received (connection w) message (user w)) = Some x ->
     exists entry,
       log_writer (fst (invoke_message_received message w)) =
       (log_writer w ++ [(errors, entry)])%list) /\
  snd (invoke_disconnected w) = None /\
  connection (fst (invoke_disconnected w)) = connection w /\
  (forall x,
     snd (m_disconnected (connection w) (user w)) = Some x ->
     exists entry,
       log_writer (fst (invoke_disconnected w)) =
       (log_writer w ++ [(errors, entry)])%list) /\
  snd (stop_continuation w) = completed tt /\
  (forall w1,
     shutdown disconnect_task (log info "stopping connection" w) =
       returns (w1, completed tt) ->
     stop disconnect_task w = returns (fst (stop_continuation w1), completed tt)) /\
  (is_canceled cts w = false ->
     let w' := fst (process_response_callback cts message w) in
     user w' = fst (m_message_received (connection w) message (user w)) /\
     log_writer w' =
       (log_writer w ++ [(messages, "processing message: " +:+ message)] ++
        match snd (m_message_received (connection w) message (user w)) with
        | None => []
        | Some (thrown_std e) =>
            [(errors, "message_received callback threw an exception: " +:+ what e)]
        | Some thrown_unknown =>
            [(errors, "message_received callback threw an unknown exception")]
        end)%list) /\
  (forall w1,
     shutdown disconnect_task (log info "stopping connection" w) =
       returns (w1, completed tt) ->
     exists w2,
       stop disconnect_task w = returns (w2, completed tt) /\
       user w2 = fst (m_disconnected (connection w1) (user w1)) /\
       log_writer w2 =
         (log_writer w1 ++
          (if decide (get_connection_state w1 = disconnecting)
           then [(state_changes, "disconnecting -> disconnected")] else []) ++
          match snd (m_disconnected (connection w1) (user w1)) with
          | None => []
          | Some (thrown_std e) =>
              [(errors, "disconnected callback threw an exception: " +:+ what e)]
          | Some thrown_unknown =>
              [(errors, "disconnected callback threw an unknown exception")]
          end)%list /\
       connection w2 =
         (if decide (get_connection_state w1 = disconnecting)
          then set_transport None (set_connection_state disconnected (connection w1))
          else connection w1) /\
       cts_heap w2 = cts_heap w1 /\ tce_heap w2 = tce_heap w1 /\
       negotiate_calls w2 = negotiate_calls w1 /\
       transport_calls w2 = transport_calls w1).
Proof.
  assert (forall m w0, snd (invoke_message_received m w0) = None) as Hm.
  { intros m w0. unfold invoke_message_received.
    destruct (m_message_received (connection w0) m (user w0)) as [u [[e|]|]]; reflexivity. }
  split; [apply Hm |]. split; [apply Hm |].
  split.
  { unfold process_response_callback. destruct (is_canceled cts w); [reflexivity | apply Hm]. }
  split; [apply connection_process_response_callback |].
  split.
  { intros x. unfold invoke_message_received.
    destruct (m_message_received (connection w) message (user w)) as [u [[e|]|]];
      simpl; intros [= <-]; eexists; reflexivity. }
  split; [apply invoke_disconnected_frame |].
  split; [apply invoke_disconnected_frame |].
  split.
  { intros x. unfold invoke_disconnected.
    destruct (m_disconnected (connection w) (user w)) as [u [[e|]|]];
      simpl; intros [= <-]; eexists; reflexivity. }
  split; [now rewrite stop_continuation_unfold |].
  split.
  { intros w1 H. unfold stop. rewrite H. cbn [then_value].
    f_equal. rewrite stop_continuation_unfold. reflexivity. }
  split.
  { intros Hc. cbv zeta. unfold process_response_callback. rewrite Hc.
    unfold process_response, invoke_message_received. simpl.
    destruct (m_message_received (connection w) message (user w)) as [u [[e|]|]];
      simpl; rewrite ?app_nil_r, <- ?app_assoc; split; reflexivity. }
  intros w1 H. unfold stop. rewrite H. cbn [then_value].
  unfold stop_continuation, change_state, invoke_disconnected.
  destruct (decide (get_connection_state w1 = disconnecting)) as [Hd|Hd]; simpl;
    destruct (m_disconnected (connection w1) (user w1)) as [u [[e|]|]];
    simpl; eexists; (split; [reflexivity |]); simpl; rewrite ?app_nil_r, <- ?app_assoc;
    repeat split; reflexivity.
Qed.

(** C10. On a connection as constructed both callbacks return without
    throwing and leave the consumer as it is; a message delivered to it
    and a [stop] on it change nothing but the log, where no error is
    written. *)
Theorem constructed_callbacks_do_nothing url (u0 : U) message disconnect_task :
  let w := create url u0 in
  (forall m u, m_message_received (connection w) m u = (u, None)) /\
  (forall u, m_disconnected (connection w) u = (u, None)) /\
  process_response_callback (m_disconnect_cts (connection w)) message w =
    (log messages ("processing message: " +:+ message) w, None) /\
  stop disconnect_task w =
    returns (log info "acquired lock in shutdown()" (log info "stopping connection" w),
             completed tt).
Proof. cbv zeta. repeat split. Qed.

(** ** [start] by its continuations *)

Lemma negotiated_continuation_ext X env
    (f g : string -> Z -> world U -> world U * task_result unit) url rc response w :
  (forall url' w', f url' (rc + 1)%Z w' = g url' (rc + 1)%Z w') ->
  negotiated_continuation X env f url rc response w =
  negotiated_continuation X env g url rc response w.
Proof.
  intros H. unfold negotiated_continuation.
  destruct (negb (String.eqb (error response) "")); [reflexivity |].
  destruct (negb (String.eqb (response.url response) "")); [apply H | reflexivity].
Qed.

(** [start_negotiate] is its first two continuations followed by the
    last one. *)
Lemma start_negotiate_by_continuations X env url rc w :
  start_negotiate X env url rc w =
    match start_negotiate_before_completion X env url rc w with
    | (w', Some previous_task) => then_task previous_task start_completion w'
    | (w', None) => (w', faulted (signalr_exception "Negotiate redirection limit exceeded."))
    end.
Proof.
  unfold start_negotiate at 1, start_negotiate_before_completion.
  cbn [start_negotiate_rounds].
  destruct (Z.leb_spec (MAX_NEGOTIATE_REDIRECTS X) rc) as [Hle|Hlt]; [reflexivity |].
  match goal with |- context [then_value_token ?tok (completed tt) ?k ?w0] =>
    destruct (then_value_token tok (completed tt) k w0) as [w1 negotiated] end.
  assert (forall response w0,
            negotiated_continuation X env
              (start_negotiate_rounds (Z.to_nat (MAX_NEGOTIATE_REDIRECTS X - rc)) X env)
              url rc response w0 =
            negotiated_continuation X env (start_negotiate X env) url rc response w0) as Hk.
  { intros response w0. apply negotiated_continuation_ext. intros url' w'.
    unfold start_negotiate.
    replace (Z.to_nat (MAX_NEGOTIATE_REDIRECTS X - rc))
      with (S (Z.to_nat (MAX_NEGOTIATE_REDIRECTS X - (rc + 1)))) by lia.
    reflexivity. }
  unfold then_value_token.
  destruct negotiated as [response|e|]; try reflexivity.
  match goal with |- context [is_canceled ?c ?w0] => destruct (is_canceled c w0) end;
    [reflexivity |].
  rewrite Hk.
  match goal with |- context [negotiated_continuation ?a ?b ?c ?d ?e ?f ?g] =>
    destruct (negotiated_continuation a b c d e f g) as [w2 p] end.
  reflexivity.
Qed.

(** [start] is its locked block followed by the continuations of
    [start_negotiate]. *)
Lemma start_by_continuations X env w :
  start X env w =
    match start_under_lock w with
    | (w0, false) =>
        (w0, faulted (signalr_exception
           "cannot start a connection that is not in the disconnected state"))
    | (w0, true) =>
        match start_negotiate_before_completion X env (m_base_url (connection w0)) 0 w0 with
        | (w', Some previous_task) => then_task previous_task start_completion w'
        | (w', None) =>
            (w', faulted (signalr_exception "Negotiate redirection limit exceeded."))
        end
    end.
Proof.
  unfold start, start_under_lock, change_state.
  destruct (decide (get_connection_state w = disconnected)); [|reflexivity].
  cbn [negb new_cancellation_token_source]. apply start_negotiate_by_continuations.
Qed.

End Properties.

(** * The claims at sample inputs *)

Lemma start_rejected_unless_disconnected_witness :
  start sample.X sample.env_connects (sample.in_state connecting) =
    (sample.in_state connecting, faulted (signalr_exception start_rejected_message)).
Proof.
  apply (@start_rejected_unless_disconnected nat sample.X sample.env_connects
           (sample.in_state connecting)).
  simpl. discriminate.
Defined.

(** C1 as stated fails on a connecting connection: the message of the
    error does not contain the name of that state. *)
Lemma start_rejection_does_not_name_state :
  ~ start_rejection_names_state sample.X sample.env_connects (sample.in_state connecting).
Proof.
  intros (message & Hr & Hm). vm_compute in Hr. injection Hr as <-.
  vm_compute in Hm. discriminate Hm.
Qed.

Lemma failed_start_is_undone_witness :
  get_connection_state (fst (start sample.X sample.env_slow_transport sample.fresh))
    = disconnected /\
  m_transport (connection (fst (start sample.X sample.env_slow_transport sample.fresh)))
    = None /\
  m_start_completed_event
    (connection (fst (start sample.X sample.env_slow_transport sample.fresh))) = true.
Proof.
  assert (start sample.X sample.env_slow_transport sample.fresh =
            (fst (start sample.X sample.env_slow_transport sample.fresh),
             faulted (signalr_exception "transport timed out when trying to connect")))
    as Hrun by (vm_compute; reflexivity).
  exact (@failed_start_is_undone nat sample.X sample.env_slow_transport sample.fresh
           _ _ eq_refl eq_refl Hrun).
Defined.

Lemma stop_is_idempotent_witness :
  shutdown (completed tt) sample.fresh =
    returns (log info "acquired lock in shutdown()" sample.fresh, completed tt) /\
  shutdown (completed tt) (sample.in_state disconnecting) =
    returns (log info "acquired lock in shutdown()" (sample.in_state disconnecting),
             canceled).
Proof.
  split.
  - apply (proj1 (@stop_is_idempotent nat (completed tt) sample.fresh)). reflexivity.
  - apply (proj2 (@stop_is_idempotent nat (completed tt) (sample.in_state disconnecting))).
    reflexivity.
Defined.

Lemma transport_handle_invariant_witness :
  m_transport (connection sample.stopped) = None.
Proof.
  assert (perform_all sample.session (create "http://host/hub" 0%nat) = Some sample.stopped)
    as Hrun by (vm_compute; reflexivity).
  assert (get_connection_state sample.stopped = disconnected)
    as Hstate by (vm_compute; reflexivity).
  exact (proj2 (proj2 (@transport_handle_invariant nat)) "http://host/hub" 0%nat
           sample.session sample.stopped Hrun Hstate).
Defined.

Lemma send_only_when_connected_witness :
  send (completed tt) "hello" sample.fresh =
    (sample.fresh,
     faulted (signalr_exception
       "cannot send data when the connection is not in the connected state. current connection state: disconnected")).
Proof.
  apply (proj1 (@send_only_when_connected nat (completed tt) "hello" sample.fresh)).
  right. reflexivity.
Defined.

Lemma connect_race_first_completion_wins_witness :
  create_task 0 (await_connect sample.connecting_transport sample.late_error sample.awaiting)
    = completed tt.
Proof.
  apply (proj1 (proj2 (proj2 (proj2 (proj2
           (@connect_race_first_completion_wins nat sample.connecting_transport
              sample.awaiting))))) 100%Z); reflexivity.
Defined.

Lemma stale_callbacks_are_dropped_witness :
  process_response_callback 1 "late" sample.restarted =
    (log info "ignoring stray message received after connection was restarted. message: late"
       sample.restarted, None).
Proof.
  assert (is_canceled (disconnect_cts sample.old_transport) sample.stopped = true)
    as Hcanceled by (vm_compute; reflexivity).
  assert (perform_all [op_start sample.X sample.env_connects] sample.stopped
          = Some sample.restarted)
    as Hrun by (vm_compute; reflexivity).
  exact (proj1 (@stale_callbacks_are_dropped nat sample.old_transport sample.stopped
                  [op_start sample.X sample.env_connects] sample.restarted "late"
                  (std_exception "late") Hcanceled Hrun)).
Defined.

Lemma negotiate_follows_redirects_witness :
  start_negotiate sample.X sample.env_redirect_loop "http://host/hub" 3 sample.fresh =
    (sample.fresh, faulted (signalr_exception "Negotiate redirection limit exceeded.")) /\
  http_headers
    (m_signalr_client_config
       (connection
          (with_connection (set_authorization "secret")
             (record_negotiate "http://host/hub"
                (m_signalr_client_config (connection sample.fresh)) sample.fresh)))) =
    <["Authorization" := "Bearer secret"]> ∅.
Proof.
  split.
  - apply (proj1 (@negotiate_follows_redirects nat sample.X sample.env_redirect_loop
                    "http://host/hub" 3%Z sample.fresh)).
    simpl. lia.
  - apply (proj2 (proj2 (@negotiate_follows_redirects nat sample.X sample.env_one_redirect
                    "http://host/hub" 0%Z sample.fresh) sample.redirect_response
                    eq_refl eq_refl eq_refl eq_refl eq_refl eq_refl
                    ltac:(discriminate))).
    discriminate.
Defined.

Lemma callback_exceptions_are_contained_witness :
  (exists entry,
     log_writer (fst (invoke_message_received "hello" sample.with_throwing_consumer)) =
     [(errors, entry)]) /\
  (exists w2,
     stop (completed tt) sample.connected_with_throwing_consumer =
       returns (w2, completed tt) /\
     user w2 = 1%nat /\
     get_connection_state w2 = disconnected /\
     log_writer w2 =
       (log_writer sample.shut_down_with_throwing_consumer ++
        [(state_changes, "disconnecting -> disconnected");
         (errors, "disconnected callback threw an exception: boom")])%list).
Proof.
  assert (snd (m_message_received (connection sample.with_throwing_consumer) "hello"
                 (user sample.with_throwing_consumer)) = Some thrown_unknown)
    as Hthrows by reflexivity.
  assert (shutdown (completed tt)
            (log info "stopping connection" sample.connected_with_throwing_consumer) =
          returns (sample.shut_down_with_throwing_consumer, completed tt))
    as Hrun by (vm_compute; reflexivity).
  pose proof (@callback_exceptions_are_contained nat 0%nat "hello" (completed tt)
                sample.with_throwing_consumer) as (_ & _ & _ & _ & Hlogged & _).
  pose proof (@callback_exceptions_are_contained nat 0%nat "hello" (completed tt)
                sample.connected_with_throwing_consumer)
    as (_ & _ & _ & _ & _ & _ & _ & _ & _ & _ & _ & Hstop).
  split; [exact (Hlogged thrown_unknown Hthrows) |].
  destruct (Hstop _ Hrun) as (w2 & Hr & Hu & Hl & Hc & _).
  exists w2. split; [exact Hr |].
  split; [rewrite Hu; vm_compute; reflexivity |].
  split; [unfold get_connection_state; rewrite Hc; vm_compute; reflexivity |].
  rewrite Hl. vm_compute. reflexivity.
Defined.

(** C4. The invariant of the transport handle does not hold after every
    run of the code. A first [start] is redirected and the server then
    reports an error; a second thread calls [start] when the nested round
    has cleaned up and before the last continuation of the outer round
    runs. The second call is accepted, the clean-up of the first call then
    puts the connection back into the disconnected state, and the second
    call, to which the server and the transport answer well, attaches its
    transport, logs the internal error of the failed transition and
    succeeds. The connection is left disconnected with a transport handle
    that is not null, and the next [start] is accepted with that transport
    still attached. *)
Theorem restart_during_cleanup_breaks_invariant :
  transport_invariant sample.fresh /\
  start_during_cleanup sample.X sample.env_redirect_then_error sample.env_connects
    sample.fresh =
    Some (sample.overtaken, faulted (signalr_exception "bad request"), completed tt) /\
  get_connection_state sample.overtaken = disconnected /\
  m_transport (connection sample.overtaken) = Some sample.overtaking_transport /\
  ~ transport_invariant sample.overtaken /\
  transitions sample.overtaken =
    ["disconnected -> connecting"; "connecting -> disconnected";
     "disconnected -> connecting"; "connecting -> disconnected"] /\
  last (log_writer sample.overtaken) =
    Some (errors,
          "internal error - transition from an unexpected state. expected state: connecting, actual state: disconnected") /\
  (exists w,
     start_under_lock sample.overtaken = (w, true) /\
     m_transport (connection w) = Some sample.overtaking_transport).
Proof.
  assert (get_connection_state sample.overtaken = disconnected) as Hs
    by (vm_compute; reflexivity).
  assert (m_transport (connection sample.overtaken) = Some sample.overtaking_transport)
    as Ht by (vm_compute; reflexivity).
  split; [intros _; reflexivity |].
  split; [vm_compute; reflexivity |].
  split; [exact Hs |]. split; [exact Ht |].
  split; [intros H; specialize (H Hs); rewrite Ht in H; discriminate H |].
  split; [vm_compute; reflexivity |].
  split; [vm_compute; reflexivity |].
  eexists. split; [vm_compute; reflexivity | reflexivity].
Qed.

(** ** The stages at which a start fails *)

Example start_fails_on_server_error :
  sample.summary (start sample.X sample.env_server_error sample.fresh) =
    (faulted (signalr_exception "bad request"), disconnected, None, true).
Proof. reflexivity. Qed.

Example start_fails_on_negotiate_failure :
  sample.summary (start sample.X sample.env_negotiate_fails sample.fresh) =
    (faulted (std_exception "web exception - 404"), disconnected, None, true).
Proof. reflexivity. Qed.

Example start_fails_on_redirect_limit :
  sample.summary (start sample.X sample.env_redirect_loop sample.fresh) =
    (faulted (signalr_exception "Negotiate redirection limit exceeded."),
     disconnected, None, true).
Proof. reflexivity. Qed.

Example start_fails_without_websockets :
  sample.summary (start sample.X sample.env_no_websockets sample.fresh) =
    (faulted (signalr_exception
       "The server does not support WebSockets which is currently the only transport supported by this client."),
     disconnected, None, true).
Proof. reflexivity. Qed.

Example start_fails_on_connect_failure :
  sample.summary (start sample.X sample.env_connect_fails sample.fresh) =
    (faulted (std_exception "refused"), disconnected, None, true).
Proof. reflexivity. Qed.

Example start_fails_on_timeout :
  sample.summary (start sample.X sample.env_slow_transport sample.fresh) =
    (faulted (signalr_exception "transport timed out when trying to connect"),
     disconnected, None, true).
Proof. reflexivity. Qed.

Example start_fails_when_stopped :
  sample.summary (start sample.X sample.env_stopped_during_negotiate sample.fresh) =
    (canceled, disconnected, None, true).
Proof. reflexivity. Qed.

Example start_connects :
  sample.summary (start sample.X sample.env_connects sample.fresh) =
    (completed tt, connected, Some sample.old_transport, true) /\
  get_connection_id sample.started = "abc" /\
  log_writer sample.started =
    [(state_changes, "disconnected -> connecting");
     (state_changes, "connecting -> connected")].
Proof. repeat split. Qed.

Example start_follows_one_redirect :
  sample.summary (start sample.X sample.env_one_redirect sample.fresh) =
    (completed tt, connected, Some sample.old_transport, true) /\
  map fst (negotiate_calls (fst (start sample.X sample.env_one_redirect sample.fresh))) =
    ["http://host/hub"; "http://redirected"] /\
  transport_calls (fst (start sample.X sample.env_one_redirect sample.fresh)) =
    [(sample.old_transport, call_connect "http://redirected?id=abc")].
Proof. repeat split. Qed.

Example restart_has_a_fresh_session :
  get_connection_state sample.stopped = disconnected /\
  is_canceled (disconnect_cts sample.old_transport) sample.restarted = true /\
  is_canceled (m_disconnect_cts (connection sample.restarted)) sample.restarted = false /\
  get_connection_state sample.restarted = connected.
Proof. repeat split. Qed.

(** * Further properties of the code *)

Section Further.

Variable U : Type.
Implicit Types (w : world U) (t : transport) (e : exn).

(** ** The setters *)

(** X1. The three setters act on a disconnected connection only: in any
    other state each throws the invalid-operation error that ends with the
    name of the current state and changes nothing; on a disconnected
    connection the value is stored, and it is the callback stored that the
    next message, and the next stop, reach. *)
Theorem setters_require_disconnected
    (message_received : string -> U -> U * option thrown)
    (disconnected_callback : U -> U * option thrown)
    (config : signalr_client_config) w :
  (get_connection_state w <> disconnected ->
     set_message_received message_received w =
       (w, Some (signalr_exception
          ("cannot set the callback when the connection is not in the disconnected state. "
             +:+ "current connection state: "
             +:+ translate_connection_state (get_connection_state w)))) /\
     set_disconnected disconnected_callback w =
       (w, Some (signalr_exception
          ("cannot set the disconnected callback when the connection is not in the disconnected state. "
             +:+ "current connection state: "
             +:+ translate_connection_state (get_connection_state w)))) /\
     set_client_config config w =
       (w, Some (signalr_exception
          ("cannot set client config when the connection is not in the disconnected state. "
             +:+ "current connection state: "
             +:+ translate_connection_state (get_connection_state w))))) /\
  (get_connection_state w = disconnected ->
     snd (set_message_received message_received w) = None /\
     snd (set_disconnected disconnected_callback w) = None /\
     snd (set_client_config config w) = None /\
     m_signalr_client_config (connection (fst (set_client_config config w))) = config /\
     (forall message,
        user (fst (process_response message (fst (set_message_received message_received w))))
        = fst (message_received message (user w))) /\
     user (fst (invoke_disconnected (fst (set_disconnected disconnected_callback w))))
     = fst (disconnected_callback (user w))).
Proof.
  split; intros Hs.
  - unfold set_message_received, set_disconnected, set_client_config, ensure_disconnected.
    destruct (decide (get_connection_state w = disconnected)) as [Hd|Hd]; [contradiction|].
    repeat split.
  - unfold set_message_received, set_disconnected, set_client_config, ensure_disconnected.
    destruct (decide (get_connection_state w = disconnected)) as [Hd|Hd]; [|contradiction].
    repeat split.
    + intros message. unfold process_response, invoke_message_received. simpl.
      destruct (message_received message (user w)) as [u [[e|]|]]; reflexivity.
    + unfold invoke_disconnected. simpl.
      destruct (disconnected_callback (user w)) as [u [[e|]|]]; reflexivity.
Qed.

(** ** Choosing the transport *)

(** X2. The scan of the available transports succeeds exactly when some
    entry is named [WebSockets], letter for letter, wherever it stands in
    the list. *)
Theorem foundWebsockets_iff (availableTransports : list available_transport) :
  foundWebsockets availableTransports = true <->
  exists a, In a availableTransports /\ transport_name a = "WebSockets".
Proof.
  induction availableTransports as [|a rest IH]; simpl.
  - split; [discriminate | intros (a & [] & _)].
  - destruct (String.eqb_spec (transport_name a) "WebSockets") as [Heq|Hne].
    + split; [intros _; exists a; now split; [left|] | reflexivity].
    + rewrite IH. split.
      * intros (b & Hb & Hn). exists b. now split; [right|].
      * intros (b & [<-|Hb] & Hn); [contradiction | now exists b].
Qed.

(** ** One round of negotiation *)

(** A round that nobody interrupts and that the server answers. *)
Lemma start_negotiate_answered X env url rc w response :
  (rc < MAX_NEGOTIATE_REDIRECTS X)%Z ->
  is_canceled (m_disconnect_cts (connection w)) w = false ->
  stop_before_negotiate env rc = false ->
  stop_during_negotiate env rc = false ->
  negotiate env rc url (m_signalr_client_config (connection w)) = completed response ->
  start_negotiate X env url rc w =
    (let (w2, previous_task) :=
       negotiated_continuation X env
         (start_negotiate_rounds (Z.to_nat (MAX_NEGOTIATE_REDIRECTS X - rc)) X env)
         url rc response
         (record_negotiate url (m_signalr_client_config (connection w)) w) in
     then_task previous_task start_completion w2).
Proof.
  intros Hlt Hc Hb Hd Hn. unfold start_negotiate. cbn [start_negotiate_rounds].
  destruct (Z.leb_spec (MAX_NEGOTIATE_REDIRECTS X) rc) as [Hle|_]; [lia |].
  rewrite Hb, Hd. cbn [interfere then_value_token]. rewrite Hc.
  unfold negotiate_continuation. rewrite Hn. cbn [interfere then_value_token].
  change (is_canceled (m_disconnect_cts (connection w))
            (record_negotiate url (m_signalr_client_config (connection w)) w))
    with (is_canceled (m_disconnect_cts (connection w)) w).
  rewrite Hc. reflexivity.
Qed.

(** X3. When the negotiate request fails, or the response carries an
    error text, [start_negotiate] fails with that exception, or with a
    [signalr_exception] of that text, after the one negotiate call: a url
    or a transport list in the same response is not looked at, no
    transport is made, the connection id is not stored, and the connection
    is back in the disconnected state. *)
Theorem negotiation_error_comes_first X env url rc w :
  (rc < MAX_NEGOTIATE_REDIRECTS X)%Z ->
  is_canceled (m_disconnect_cts (connection w)) w = false ->
  stop_before_negotiate env rc = false ->
  stop_during_negotiate env rc = false ->
  forall failure,
    (negotiate env rc url (m_signalr_client_config (connection w)) = faulted failure \/
     exists response,
       negotiate env rc url (m_signalr_client_config (connection w)) = completed response /\
       error response <> "" /\ failure = signalr_exception (error response)) ->
    exists w',
      start_negotiate X env url rc w = (w', faulted failure) /\
      negotiate_calls w' =
        (negotiate_calls w ++ [(url, m_signalr_client_config (connection w))])%list /\
      transport_calls w' = transport_calls w /\
      tce_heap w' = tce_heap w /\
      m_connection_id (connection w') = m_connection_id (connection w) /\
      m_signalr_client_config (connection w') = m_signalr_client_config (connection w) /\
      get_connection_state w' = disconnected /\
      m_transport (connection w') = None /\
      m_start_completed_event (connection w') = true.
Proof.
  intros Hlt Hc Hb Hd failure Hf.
  assert (start_negotiate X env url rc w =
            then_task (faulted failure) start_completion
              (record_negotiate url (m_signalr_client_config (connection w)) w)) as ->.
  { destruct Hf as [Hn|(response & Hn & He & ->)].
    - unfold start_negotiate. cbn [start_negotiate_rounds].
      destruct (Z.leb_spec (MAX_NEGOTIATE_REDIRECTS X) rc) as [Hle|_]; [lia |].
      rewrite Hb, Hd. cbn [interfere then_value_token]. rewrite Hc.
      unfold negotiate_continuation. rewrite Hn. reflexivity.
    - rewrite (@start_negotiate_answered X env url rc w response Hlt Hc Hb Hd Hn).
      unfold negotiated_continuation. apply String.eqb_neq in He. rewrite He. reflexivity. }
  eexists. split; [reflexivity |].
  unfold change_state_to, get_connection_state. simpl.
  match goal with |- context [decide ?P] => destruct (decide P) end;
    destruct (is_task_canceled failure); repeat split.
Qed.

(** X4. When the final response offers no [WebSockets] transport,
    [start_negotiate] fails with the unsupported-transport error: no
    transport is made and no call issued on one, the connection is back in
    the disconnected state, and the connection id of the response stays
    stored. *)
Theorem no_websockets_no_transport X env url rc w response :
  (rc < MAX_NEGOTIATE_REDIRECTS X)%Z ->
  is_canceled (m_disconnect_cts (connection w)) w = false ->
  stop_before_negotiate env rc = false ->
  stop_during_negotiate env rc = false ->
  negotiate env rc url (m_signalr_client_config (connection w)) = completed response ->
  error response = "" ->
  response.url response = "" ->
  foundWebsockets (availableTransports response) = false ->
  exists w',
    start_negotiate X env url rc w =
      (w', faulted (signalr_exception
         "The server does not support WebSockets which is currently the only transport supported by this client.")) /\
    transport_calls w' = transport_calls w /\
    tce_heap w' = tce_heap w /\
    get_connection_state w' = disconnected /\
    m_transport (connection w') = None /\
    m_start_completed_event (connection w') = true /\
    m_connection_id (connection w') = connectionId response /\
    get_connection_id w' = connectionId response.
Proof.
  intros Hlt Hc Hb Hd Hn He Hu Hf.
  rewrite (@start_negotiate_answered X env url rc w response Hlt Hc Hb Hd Hn).
  unfold negotiated_continuation. rewrite He, Hu, Hf. cbn [String.eqb negb then_task].
  eexists. split; [reflexivity |].
  unfold get_connection_id, change_state_to, get_connection_state. simpl.
  match goal with |- context [decide (?a = disconnected)] =>
    destruct (decide (a = disconnected)) end; repeat split.
Qed.

(** ** Stopping a connected connection *)

(** X5. [stop] on a connected connection whose start is over cancels the
    source of the session, moves to disconnecting and calls [disconnect]
    on the transport, once. When that task completes, the connection
    becomes disconnected, the handle null, and the disconnected callback
    runs once. When it fails, [stop] fails with the same exception and the
    continuation does not run: the connection stays disconnecting with its
    transport, and the callback is not called. *)
Theorem stop_when_connected disconnect_task w t :
  get_connection_state w = connected ->
  m_start_completed_event (connection w) = true ->
  m_transport (connection w) = Some t ->
  exists w1,
    shutdown disconnect_task (log info "stopping connection" w) =
      returns (w1, disconnect_task) /\
    get_connection_state w1 = disconnecting /\
    m_transport (connection w1) = Some t /\
    transport_calls w1 = (transport_calls w ++ [(t, call_disconnect)])%list /\
    cts_heap w1 = <[m_disconnect_cts (connection w) := true]> (cts_heap w) /\
    user w1 = user w /\
    match disconnect_task with
    | completed _ =>
        exists w',
          stop disconnect_task w = returns (w', completed tt) /\
          get_connection_state w' = disconnected /\
          m_transport (connection w') = None /\
          transport_calls w' = transport_calls w1 /\
          user w' = fst (m_disconnected (connection w) (user w)) /\
          transitions w' =
            (transitions w ++ ["connected -> disconnecting";
                               "disconnecting -> disconnected"])%list
    | _ => stop disconnect_task w = returns (w1, disconnect_task)
    end.
Proof.
  intros Hs Hl Ht. unfold stop. rewrite shutdown_unfold. cbv zeta.
  change (get_connection_state (log info "stopping connection" w))
    with (get_connection_state w).
  change (connection (log info "stopping connection" w)) with (connection w).
  rewrite Hs, Hl, Ht. eexists. split; [reflexivity |].
  unfold change_state_to, get_connection_state in *. simpl. rewrite Hs.
  destruct (decide (connected = disconnecting)) as [Hd|_]; [discriminate |]. simpl.
  repeat split; try exact Ht.
  destruct disconnect_task as [[]|e|]; cbn [then_value]; try reflexivity.
  rewrite stop_continuation_unfold. cbv zeta. eexists. split; [reflexivity |].
  unfold get_connection_state. simpl.
  destruct (decide (disconnecting = disconnecting)) as [_|Hd]; [|contradiction].
  unfold invoke_disconnected, transitions. simpl.
  assert (forall (entries more : list (trace_level * string)),
            state_changes_of (entries ++ more) =
            (state_changes_of entries ++ state_changes_of more)%list) as Happ.
  { intros entries more. induction entries as [|[[] text] rest IH]; simpl; congruence. }
  destruct (m_disconnected (connection w) (user w)) as [u [[e|]|]]; simpl;
    repeat split; rewrite !Happ; simpl; rewrite ?app_nil_r, <- ?app_assoc; reflexivity.
Qed.

(** ** Destruction *)

Lemma shutdown_returns disconnect_task w w' r :
  shutdown disconnect_task w = returns (w', r) ->
  user w' = user w /\
  ((get_connection_state w = disconnected /\ r = completed tt /\
    get_connection_state w' = disconnected /\
    m_transport (connection w') = m_transport (connection w)) \/
   (get_connection_state w = disconnecting /\ r = canceled /\
    get_connection_state w' = disconnecting) \/
   (get_connection_state w' = disconnecting /\ r = disconnect_task)).
Proof.
  rewrite shutdown_unfold. cbv zeta.
  destruct (get_connection_state w) eqn:Hs.
  1, 2: destruct (m_start_completed_event (connection w)); [|discriminate];
    destruct (m_transport (connection w)); [|discriminate];
    intros [= <- <-]; unfold change_state_to, get_connection_state; simpl;
    match goal with |- context [decide ?P] => destruct (decide P) end;
    (split; [reflexivity | right; right; now split]).
  - intros [= <- <-]. split; [reflexivity |]. right. left. repeat split. exact Hs.
  - intros [= <- <-]. split; [reflexivity |]. left. repeat split. exact Hs.
Qed.

Lemma shutdown_waits disconnect_task w :
  shutdown disconnect_task w = never_returns ->
  m_start_completed_event (connection w) = false.
Proof.
  rewrite shutdown_unfold. cbv zeta.
  destruct (get_connection_state w); try discriminate;
    destruct (m_start_completed_event (connection w)); try reflexivity;
    destruct (m_transport (connection w)); discriminate.
Qed.

Lemma finalize_disconnected w :
  get_connection_state (finalize w) = disconnected /\
  m_transport (connection (finalize w)) = None /\
  user (finalize w) = user w.
Proof.
  unfold finalize, change_state_to, get_connection_state. simpl.
  match goal with |- context [decide ?P] => destruct (decide P) end; repeat split.
Qed.

(** X6. The destructor never calls a callback of the consumer and never
    waits for the start-completed event, which it sets itself: it blocks
    only on a [disconnect] that does not finish. When it runs to its end
    the connection is disconnected with a null transport handle, whatever
    [disconnect] threw; it leaves early, without that, only when the task
    of [shutdown] is canceled: a stop was already under way, or
    [disconnect] ended in [pplx::task_canceled]. *)
Theorem destructor_is_quiet disconnect_task w :
  (destroy disconnect_task w = never_returns -> disconnect_task = pending) /\
  (forall w',
     destroy disconnect_task w = returns w' ->
     user w' = user w /\
     ((get_connection_state w' = disconnected /\ m_transport (connection w') = None) \/
      (get_connection_state w' = disconnecting /\
       (get_connection_state w = disconnecting \/
        exists e, disconnect_task = faulted e /\ is_task_canceled e = true)))).
Proof.
  unfold destroy.
  destruct (shutdown disconnect_task (with_connection (set_start_completed_event true) w))
    as [[w1 r]| |] eqn:H.
  - apply shutdown_returns in H as (Hu & H).
    change (user (with_connection (set_start_completed_event true) w)) with (user w) in Hu.
    change (get_connection_state (with_connection (set_start_completed_event true) w))
      with (get_connection_state w) in H.
    destruct (finalize_disconnected w1) as (F1 & F2 & F3).
    destruct r as [[]|e|].
    + split; [discriminate |]. intros w' [= <-].
      split; [congruence | left; now split].
    + destruct (is_task_canceled e) eqn:He.
      * split; [discriminate |]. intros w' [= <-]. split; [exact Hu |].
        destruct H as [(_ & [=] & _)|[(Hs & _ & Hs')|(Hs' & <-)]].
        -- right. split; [exact Hs' | now left].
        -- right. split; [exact Hs' | right; now exists e].
      * split; [discriminate |]. intros w' [= <-].
        split; [congruence | left; now split].
    + split; [|intros w'; discriminate]. intros _.
      destruct H as [(_ & [=] & _)|[(_ & [=] & _)|(_ & <-)]]. reflexivity.
  - apply shutdown_waits in H. discriminate H.
  - split; [discriminate | intros w'; discriminate].
Qed.

(** ** The shape of a round of [start_negotiate] *)

(** The ways through the second continuation. *)
Lemma negotiated_continuation_cases X env
    (recurse : string -> Z -> world U -> world U * task_result unit)
    url rc response w w' p :
  negotiated_continuation X env recurse url rc response w = (w', p) ->
  (error response <> "" /\ w' = w /\ p = faulted (signalr_exception (error response))) \/
  (error response = "" /\ response.url response <> "" /\
   recurse (response.url response) (rc + 1)%Z
     (if String.eqb (accessToken response) "" then w
      else with_connection (set_authorization (accessToken response)) w) = (w', p)) \/
  (error response = "" /\ response.url response = "" /\
   foundWebsockets (availableTransports response) = false /\
   w' = with_connection (set_connection_id (connectionId response)) w /\
   p = faulted (signalr_exception
     "The server does not support WebSockets which is currently the only transport supported by this client.")) \/
  (error response = "" /\ response.url response = "" /\
   foundWebsockets (availableTransports response) = true /\
   exists w1 started,
     start_transport X (connect_events env) url
       (with_connection (set_connection_id (connectionId response)) w) = (w1, started) /\
     then_value started transport_started w1 = (w', p)).
Proof.
  unfold negotiated_continuation.
  destruct (String.eqb_spec (error response) "") as [He|He]; cbn [negb].
  2: { intros [= <- <-]. left. now repeat split. }
  destruct (String.eqb_spec (response.url response) "") as [Hu|Hu]; cbn [negb].
  2: { intros H. right. left. repeat split; try assumption.
       destruct (String.eqb (accessToken response) ""); exact H. }
  destruct (foundWebsockets (availableTransports response)) eqn:Hf; cbn [negb].
  2: { intros [= <- <-]. right. right. left. now repeat split. }
  destruct (start_transport X (connect_events env) url _) as [w1 started] eqn:Ht.
  intros H. right. right. right. repeat split; try assumption.
  now exists w1, started.
Qed.

(** The ways through a round that is within the redirect bound: the
    world [w3] and the task [p] that the last continuation gets. *)
Lemma round_cases fuel X env url rc w w' r :
  (rc < MAX_NEGOTIATE_REDIRECTS X)%Z ->
  start_negotiate_rounds (S fuel) X env url rc w = (w', r) ->
  let token := m_disconnect_cts (connection w) in
  let w1 := interfere (stop_before_negotiate env rc) w in
  let config := m_signalr_client_config (connection w) in
  let w2 := interfere (stop_during_negotiate env rc) (record_negotiate url config w1) in
  exists w3 p,
    then_task p start_completion w3 = (w', r) /\
    ((w3 = interfere (stop_during_negotiate env rc) w1 /\ p = canceled) \/
     (w3 = w2 /\ exists e, p = faulted e) \/
     (w3 = w2 /\ p = pending /\ negotiate env rc url config = pending) \/
     (exists response,
        negotiate env rc url config = completed response /\
        negotiated_continuation X env (start_negotiate_rounds fuel X env)
          url rc response w2 = (w3, p))).
Proof.
  intros Hlt H token w1 config w2. cbn [start_negotiate_rounds] in H.
  destruct (Z.leb_spec (MAX_NEGOTIATE_REDIRECTS X) rc) as [Hle|_]; [lia |].
  assert (m_signalr_client_config (connection w1) = config) as Hcfg.
  { unfold w1. now rewrite connection_interfere. }
  fold w1 in H. unfold then_value_token at 1 in H.
  destruct (is_canceled (m_disconnect_cts (connection w)) w1) eqn:Hc1.
  { cbn [then_value_token] in H. eexists _, _. split; [exact H |]. left. now split. }
  unfold negotiate_continuation in H. rewrite Hcfg in H. fold w2 in H.
  destruct (negotiate env rc url config) as [response|e|] eqn:Hn; cbn [then_value_token] in H.
  - destruct (is_canceled (m_disconnect_cts (connection w)) w2) eqn:Hc2.
    + eexists _, _. split; [exact H |]. right. left. split; [reflexivity | now eexists].
    + match type of H with
      | context [negotiated_continuation ?a ?b ?c ?d ?e ?f ?g] =>
          destruct (negotiated_continuation a b c d e f g) as [w3 p] eqn:Hk
      end.
      exists w3, p. split; [exact H |]. right. right. right. now exists response.
  - eexists _, _. split; [exact H |]. right. left. split; [reflexivity | now eexists].
  - eexists _, _. split; [exact H |]. right. right. left. now repeat split.
Qed.

(** ** What waiting and interference leave alone *)

Lemma state_changes_of_app (entries more : list (trace_level * string)) :
  state_changes_of (entries ++ more) =
  (state_changes_of entries ++ state_changes_of more)%list.
Proof. induction entries as [|[[] text] rest IH]; simpl; congruence. Qed.

Lemma transitions_log level entry w :
  transitions (log level entry w) =
  (transitions w ++ match level with state_changes => [entry] | _ => [] end)%list.
Proof.
  unfold transitions. simpl. rewrite state_changes_of_app. now destruct level.
Qed.

Lemma only_cancels_trans cts w1 w2 w3 :
  only_cancels cts w1 w2 -> only_cancels cts w2 w3 -> only_cancels cts w1 w3.
Proof.
  unfold only_cancels. intros [H12|H12] [H23|H23]; rewrite H23, H12; auto.
  right. apply list_insert_insert_eq.
Qed.

Lemma undisturbed_refl w : undisturbed w w.
Proof. repeat split. now left. Qed.

Lemma undisturbed_trans w1 w2 w3 :
  undisturbed w1 w2 -> undisturbed w2 w3 -> undisturbed w1 w3.
Proof.
  intros (Hc & Hn & Ht & Hl & Ho) (Hc' & Hn' & Ht' & Hl' & Ho').
  rewrite Hc in Ho'. repeat split; try congruence.
  eapply only_cancels_trans; eassumption.
Qed.

(** A step that changes neither the connection, the call traces, the
    sources nor the logged state changes. *)
Lemma undisturbed_same w w' :
  connection w' = connection w -> negotiate_calls w' = negotiate_calls w ->
  transport_calls w' = transport_calls w -> cts_heap w' = cts_heap w ->
  transitions w' = transitions w -> undisturbed w w'.
Proof. intros. repeat split; try assumption. now left. Qed.

Lemma undisturbed_complete tce c w : undisturbed w (complete tce c w).
Proof.
  unfold complete. destruct (tce_heap w !! tce) as [[?|]|];
    try apply undisturbed_refl. now apply undisturbed_same.
Qed.

Lemma undisturbed_shutdown_until_wait w : undisturbed w (fst (shutdown_until_wait w)).
Proof.
  unfold shutdown_until_wait.
  change (get_connection_state (log info "acquired lock in shutdown()" w))
    with (get_connection_state w).
  assert (transitions (log info "acquired lock in shutdown()" w) = transitions w) as Hl.
  { rewrite transitions_log. apply app_nil_r. }
  destruct (get_connection_state w); simpl; try (now apply undisturbed_same).
  all: split; [reflexivity | split; [reflexivity | split; [reflexivity |
         split; [exact Hl | now right]]]].
Qed.

Lemma undisturbed_interfere b w : undisturbed w (interfere b w).
Proof. destruct b; [apply undisturbed_shutdown_until_wait | apply undisturbed_refl]. Qed.

Lemma undisturbed_process_response_callback cts response w :
  undisturbed w (fst (process_response_callback cts response w)).
Proof.
  unfold process_response_callback, process_response, invoke_message_received.
  destruct (is_canceled cts w).
  { apply undisturbed_same; try reflexivity. simpl. rewrite transitions_log.
    apply app_nil_r. }
  simpl.
  destruct (m_message_received (connection w) response (user w)) as [u [[e|]|]];
    apply undisturbed_same; try reflexivity;
    unfold transitions; simpl; rewrite !state_changes_of_app; simpl;
    now rewrite ?app_nil_r.
Qed.

Lemma undisturbed_error_callback tce cts e w : undisturbed w (error_callback tce cts e w).
Proof.
  unfold error_callback, tce_set_exception.
  destruct (is_canceled cts w); [|apply undisturbed_complete].
  apply undisturbed_same; try reflexivity. rewrite transitions_log. apply app_nil_r.
Qed.

Lemma undisturbed_connect_timeout_task tce cts w :
  undisturbed w (connect_timeout_task tce cts w).
Proof.
  unfold connect_timeout_task, tce_set, tce_set_exception.
  destruct (is_canceled cts w); apply undisturbed_complete.
Qed.

Lemma undisturbed_connect_task_continuation tce r w :
  undisturbed w (connect_task_continuation tce r w).
Proof.
  unfold connect_task_continuation, tce_set, tce_set_exception.
  destruct r as [[]|e|]; [apply undisturbed_complete | | apply undisturbed_refl].
  eapply undisturbed_trans; [|apply undisturbed_complete].
  apply undisturbed_same; try reflexivity. rewrite transitions_log. apply app_nil_r.
Qed.

Lemma undisturbed_deliver t ev w : undisturbed w (deliver t ev w).
Proof.
  destruct ev; simpl.
  - apply undisturbed_connect_task_continuation.
  - apply undisturbed_error_callback.
  - apply undisturbed_process_response_callback.
  - apply undisturbed_shutdown_until_wait.
Qed.

Lemma undisturbed_await_connect t events w : undisturbed w (await_connect t events w).
Proof.
  revert w. induction events as [|[at_ms ev] rest IH]; intros w; simpl.
  - apply undisturbed_connect_timeout_task.
  - destruct (transport_connect_timeout <=? at_ms)%Z.
    + apply undisturbed_connect_timeout_task.
    + destruct (create_task (connect_request_tce t) (deliver t ev w));
        try apply undisturbed_deliver.
      eapply undisturbed_trans; [apply undisturbed_deliver | apply IH].
Qed.

(** What [start_transport] does: one transport, one call on it. *)
Lemma start_transport_frame X events url w w' started :
  start_transport X events url w = (w', started) ->
  let t := {| disconnect_cts := m_disconnect_cts (connection w);
              connect_request_tce := length (tce_heap w) |} in
  connection w' = connection w /\
  negotiate_calls w' = negotiate_calls w /\
  transitions w' = transitions w /\
  only_cancels (m_disconnect_cts (connection w)) w w' /\
  transport_calls w' =
    (transport_calls w ++
       [(t, call_connect (build_connect X url websockets
                            ("id=" +:+ m_connection_id (connection w))))])%list /\
  (forall t', started = completed t' ->
     t' = t /\ tce_heap w' !! connect_request_tce t = Some (Some set_value)).
Proof.
  rewrite start_transport_unfold. cbv zeta. intros [= <- <-].
  match goal with |- context [await_connect ?t0 ?evs ?w0] =>
    destruct (undisturbed_await_connect t0 evs w0) as (Hc & Hn & Ht & Hl & Ho);
    set (w1 := await_connect t0 evs w0) in *
  end.
  split; [exact Hc |]. split; [exact Hn |]. split; [exact Hl |].
  split; [exact Ho |]. split; [exact Ht |].
  intros t'. unfold create_task. simpl.
  destruct (tce_heap w1 !! length (tce_heap w)) as [[[|e]|]|]; try discriminate.
  intros [= <-]. split; reflexivity.
Qed.

(** ** What a whole [start_negotiate] leaves alone *)

Lemma same_session_refl (c : connection_impl U) : same_session c c.
Proof. repeat split. Qed.

Lemma same_session_trans (c1 c2 c3 : connection_impl U) :
  same_session c1 c2 -> same_session c2 c3 -> same_session c1 c3.
Proof.
  intros (A1 & A2 & A3 & A4 & A5 & A6) (B1 & B2 & B3 & B4 & B5 & B6).
  repeat split; congruence.
Qed.

(** The two continuations that finish a start touch the transport
    handle, the state, the start-completed event and the log only. *)
Lemma transport_started_frame (started : task_result transport) w w' p :
  then_value started transport_started w = (w', p) ->
  same_session (connection w) (connection w') /\
  m_connection_id (connection w') = m_connection_id (connection w) /\
  cts_heap w' = cts_heap w /\ tce_heap w' = tce_heap w /\
  negotiate_calls w' = negotiate_calls w /\ transport_calls w' = transport_calls w.
Proof.
  destruct started as [t|e|]; simpl; try (intros [= <- _]; repeat split).
  unfold transport_started, change_state.
  match goal with |- context [decide ?P] => destruct (decide P) end;
    intros [= <- _]; repeat split.
Qed.

Lemma start_completion_frame (p : task_result unit) w w' r :
  then_task p start_completion w = (w', r) ->
  same_session (connection w) (connection w') /\
  m_connection_id (connection w') = m_connection_id (connection w) /\
  cts_heap w' = cts_heap w /\ tce_heap w' = tce_heap w /\
  negotiate_calls w' = negotiate_calls w /\ transport_calls w' = transport_calls w.
Proof.
  destruct p as [[]|e|]; simpl; intros [= <- _]; try (repeat split; fail).
  unfold change_state_to. simpl.
  match goal with |- context [decide ?P] => destruct (decide P) end;
    destruct (is_task_canceled e); repeat split.
Qed.

Lemma start_negotiate_rounds_frame fuel X env url rc w w' r :
  start_negotiate_rounds fuel X env url rc w = (w', r) ->
  same_session (connection w) (connection w') /\
  only_cancels (m_disconnect_cts (connection w)) w w' /\
  exists calls,
    negotiate_calls w' = (negotiate_calls w ++ calls)%list /\
    length calls <= Z.to_nat (MAX_NEGOTIATE_REDIRECTS X - rc).
Proof.
  revert url rc w w' r. induction fuel as [|fuel IH]; intros url rc w w' r H.
  { cbn [start_negotiate_rounds] in H.
    destruct (MAX_NEGOTIATE_REDIRECTS X <=? rc)%Z; inversion H; subst;
      (split; [apply same_session_refl | split; [now left |]]);
      exists []; rewrite app_nil_r; (split; [reflexivity | simpl; lia]). }
  destruct (Z.leb_spec (MAX_NEGOTIATE_REDIRECTS X) rc) as [Hle|Hlt].
  { cbn [start_negotiate_rounds] in H.
    destruct (Z.leb_spec (MAX_NEGOTIATE_REDIRECTS X) rc); [|lia]. inversion H; subst.
    split; [apply same_session_refl | split; [now left |]].
    exists []. rewrite app_nil_r. split; [reflexivity | simpl; lia]. }
  apply round_cases in H; [|exact Hlt]. cbv zeta in H.
  destruct H as (w3 & p & H3 & Hcases).
  apply start_completion_frame in H3 as (S3 & _ & C3 & _ & N3 & _).
  pose proof (undisturbed_interfere (stop_before_negotiate env rc) w)
    as (Hc1 & Hn1 & _ & _ & Ho1).
  set (w1 := interfere (stop_before_negotiate env rc) w) in *.
  set (config := m_signalr_client_config (connection w)) in *.
  pose proof (undisturbed_interfere (stop_during_negotiate env rc)
                (record_negotiate url config w1)) as (Hc2 & Hn2 & _ & _ & Ho2).
  set (w2 := interfere (stop_during_negotiate env rc) (record_negotiate url config w1)) in *.
  simpl in Hc2, Hn2, Ho2. rewrite Hc1 in Ho2.
  assert (only_cancels (m_disconnect_cts (connection w)) w w2) as Ho12.
  { eapply only_cancels_trans; [exact Ho1 | exact Ho2]. }
  assert (connection w2 = connection w) as Hcw2 by congruence.
  assert (negotiate_calls w2 = (negotiate_calls w ++ [(url, config)])%list) as Hnw2
    by congruence.
  assert (1 <= Z.to_nat (MAX_NEGOTIATE_REDIRECTS X - rc)) as Hone by lia.
  assert (forall w4 : world U,
            same_session (connection w4) (connection w') ->
            cts_heap w' = cts_heap w4 -> negotiate_calls w' = negotiate_calls w4 ->
            same_session (connection w2) (connection w4) ->
            cts_heap w4 = cts_heap w2 -> negotiate_calls w4 = negotiate_calls w2 ->
            same_session (connection w) (connection w') /\
            only_cancels (m_disconnect_cts (connection w)) w w' /\
            exists calls,
              negotiate_calls w' = (negotiate_calls w ++ calls)%list /\
              length calls <= Z.to_nat (MAX_NEGOTIATE_REDIRECTS X - rc)) as Hfrom2.
  { intros w4 A1 A2 A3 B1 B2 B3. split; [|split].
    - eapply same_session_trans; [|exact A1].
      eapply same_session_trans; [|exact B1]. rewrite Hcw2. apply same_session_refl.
    - unfold only_cancels in *. rewrite A2, B2. exact Ho12.
    - exists [(url, config)]. split; [congruence | exact Hone]. }
  destruct Hcases as [[-> ->]|[[-> _]|[[-> _]|(response & Hn & Hk)]]].
  - (* canceled before the request *)
    pose proof (undisturbed_interfere (stop_during_negotiate env rc) w1)
      as (Hc & Hn & _ & _ & Ho).
    rewrite Hc1 in Ho. split; [|split].
    + eapply same_session_trans; [|exact S3]. rewrite Hc, Hc1. apply same_session_refl.
    + unfold only_cancels in *. rewrite C3.
      eapply only_cancels_trans; [exact Ho1 | exact Ho].
    + exists []. rewrite app_nil_r. split; [congruence | simpl; lia].
  - apply (Hfrom2 w2); try assumption; try reflexivity. apply same_session_refl.
  - apply (Hfrom2 w2); try assumption; try reflexivity. apply same_session_refl.
  - apply negotiated_continuation_cases in Hk
      as [(_ & -> & _)|[(_ & _ & Hrec)|[(_ & _ & _ & -> & _)|(_ & _ & _ & w5 & started & Ht & Hs)]]].
    + apply (Hfrom2 w2); try assumption; try reflexivity. apply same_session_refl.
    + apply IH in Hrec as (Sr & Or & calls & Nr & Lr).
      match type of Sr with same_session (connection ?w0) _ =>
        assert (same_session (connection w) (connection w0) /\
                m_disconnect_cts (connection w0) = m_disconnect_cts (connection w) /\
                cts_heap w0 = cts_heap w2 /\ negotiate_calls w0 = negotiate_calls w2)
          as (Sa & Ca & Ha & Na)
          by (destruct (String.eqb (accessToken response) ""); simpl; rewrite ?Hcw2;
              repeat split)
      end.
      rewrite Ca in Or. split; [|split].
      * eapply same_session_trans; [|exact S3]. eapply same_session_trans; eassumption.
      * unfold only_cancels in *. rewrite C3. rewrite Ha in Or.
        eapply only_cancels_trans; [exact Ho12 | exact Or].
      * exists ((url, config) :: calls). split.
        -- rewrite N3, Nr, Na, Hnw2, <- app_assoc. reflexivity.
        -- simpl. lia.
    + apply (Hfrom2 (with_connection (set_connection_id (connectionId response)) w2));
        try assumption; try reflexivity. repeat split.
    + apply start_transport_frame in Ht as (Tc & Tn & _ & To & _ & _).
      apply transport_started_frame in Hs as (Ss & _ & Cs & _ & Ns & _).
      simpl in Tc, Tn, To. split; [|split].
      * eapply same_session_trans; [|exact S3]. eapply same_session_trans; [|exact Ss].
        rewrite Tc. simpl. rewrite Hcw2. repeat split.
      * unfold only_cancels in *. rewrite C3, Cs. rewrite Hcw2 in To.
        eapply only_cancels_trans; [exact Ho12 | exact To].
      * exists [(url, config)]. split; [congruence | exact Hone].
Qed.

(** ** How a [start_negotiate] on a connecting connection ends *)

Lemma start_completion_transitions e w w' r :
  then_task (faulted e) start_completion w = (w', r) ->
  r = faulted e /\
  get_connection_state w' = disconnected /\
  m_transport (connection w') = None /\
  transitions w' =
    (transitions w ++
       if decide (get_connection_state w = disconnected) then []
       else [translate_connection_state (get_connection_state w) +:+ " -> "
               +:+ translate_connection_state disconnected])%list.
Proof.
  simpl. intros [= <- <-]. split; [reflexivity |].
  unfold change_state_to, get_connection_state, handle_connection_state_change. simpl.
  destruct (is_task_canceled e); simpl;
    destruct (decide (m_connection_state (connection w) = disconnected));
    repeat split; unfold transitions; simpl; rewrite ?state_changes_of_app; simpl;
    rewrite ?app_nil_r, <- ?app_assoc; reflexivity.
Qed.

Lemma start_completion_from_connecting e w w' r :
  get_connection_state w = connecting ->
  then_task (faulted e) start_completion w = (w', r) ->
  r = faulted e /\
  get_connection_state w' = disconnected /\
  m_transport (connection w') = None /\
  transitions w' = (transitions w ++ ["connecting -> disconnected"])%list.
Proof.
  intros Hs H. apply start_completion_transitions in H as (-> & H1 & H2 & H3).
  rewrite Hs in H3. destruct (decide (connecting = disconnected)); [discriminate |].
  now repeat split.
Qed.

Lemma start_completion_from_disconnected e w w' r :
  get_connection_state w = disconnected ->
  then_task (faulted e) start_completion w = (w', r) ->
  r = faulted e /\
  get_connection_state w' = disconnected /\
  m_transport (connection w') = None /\
  transitions w' = transitions w.
Proof.
  intros Hs H. apply start_completion_transitions in H as (-> & H1 & H2 & H3).
  rewrite Hs in H3. destruct (decide (disconnected = disconnected)); [|contradiction].
  rewrite app_nil_r in H3. now repeat split.
Qed.

Lemma transport_started_outcome t w w' p :
  get_connection_state w = connecting ->
  transport_started t w = (w', p) ->
  p = completed tt /\
  get_connection_state w' = connected /\
  m_transport (connection w') = Some t /\
  transitions w' = (transitions w ++ ["connecting -> connected"])%list /\
  m_connection_id (connection w') = m_connection_id (connection w) /\
  m_disconnect_cts (connection w') = m_disconnect_cts (connection w) /\
  tce_heap w' = tce_heap w /\
  transport_calls w' = transport_calls w.
Proof.
  unfold transport_started, change_state, get_connection_state. simpl.
  intros ->. simpl. intros [= <- <-]. repeat split.
  unfold handle_connection_state_change. now rewrite transitions_log.
Qed.

Lemma start_negotiate_rounds_outcome fuel X env url rc w w' r :
  get_connection_state w = connecting ->
  start_negotiate_rounds fuel X env url rc w = (w', r) ->
  match r with
  | completed _ =>
      transitions w' = (transitions w ++ ["connecting -> connected"])%list /\
      exists rc' url' config response t,
        (rc <= rc')%Z /\
        negotiate env rc' url' config = completed response /\
        error response = "" /\
        response.url response = "" /\
        foundWebsockets (availableTransports response) = true /\
        m_connection_id (connection w') = connectionId response /\
        m_transport (connection w') = Some t /\
        disconnect_cts t = m_disconnect_cts (connection w) /\
        tce_heap w' !! connect_request_tce t = Some (Some set_value) /\
        transport_calls w' =
          (transport_calls w ++
             [(t, call_connect (build_connect X url' websockets
                                  ("id=" +:+ connectionId response)))])%list
  | faulted _ =>
      (get_connection_state w' = disconnected /\
       m_transport (connection w') = None /\
       transitions w' = (transitions w ++ ["connecting -> disconnected"])%list) \/
      ((MAX_NEGOTIATE_REDIRECTS X <= rc)%Z /\ w' = w)
  | pending =>
      get_connection_state w' = connecting /\
      transitions w' = transitions w /\
      m_transport (connection w') = m_transport (connection w)
  end.
Proof.
  revert url rc w w' r. induction fuel as [|fuel IH]; intros url rc w w' r Hst H.
  { cbn [start_negotiate_rounds] in H.
    destruct (Z.leb_spec (MAX_NEGOTIATE_REDIRECTS X) rc); inversion H; subst.
    - right. now split.
    - now repeat split. }
  destruct (Z.leb_spec (MAX_NEGOTIATE_REDIRECTS X) rc) as [Hle|Hlt].
  { cbn [start_negotiate_rounds] in H.
    destruct (Z.leb_spec (MAX_NEGOTIATE_REDIRECTS X) rc); [|lia]. inversion H; subst.
    right. now split. }
  apply round_cases in H; [|exact Hlt]. cbv zeta in H.
  destruct H as (w3 & p & H3 & Hcases).
  pose proof (undisturbed_interfere (stop_before_negotiate env rc) w)
    as (Hc1 & _ & Ht1 & Hl1 & _).
  set (w1 := interfere (stop_before_negotiate env rc) w) in *.
  set (config := m_signalr_client_config (connection w)) in *.
  pose proof (undisturbed_interfere (stop_during_negotiate env rc)
                (record_negotiate url config w1)) as (Hc2 & _ & Ht2 & Hl2 & _).
  set (w2 := interfere (stop_during_negotiate env rc) (record_negotiate url config w1)) in *.
  simpl in Hc2, Ht2. change (transitions (record_negotiate url config w1))
    with (transitions w1) in Hl2.
  assert (connection w2 = connection w) as Hcw2 by congruence.
  assert (transitions w2 = transitions w) as Hlw2 by congruence.
  assert (transport_calls w2 = transport_calls w) as Htw2 by congruence.
  (* a failure handed to the last continuation by a connecting connection *)
  assert (forall (w4 : world U) e,
            connection w4 = connection w2 \/
            (exists id, connection w4 = set_connection_id id (connection w2)) ->
            transitions w4 = transitions w2 ->
            then_task (faulted e) start_completion w4 = (w', r) ->
            match r with
            | completed _ => False
            | faulted _ =>
                get_connection_state w' = disconnected /\
                m_transport (connection w') = None /\
                transitions w' = (transitions w ++ ["connecting -> disconnected"])%list
            | pending => False
            end) as Hfail.
  { intros w4 e Hc4 Hl4 H4.
    assert (get_connection_state w4 = connecting) as Hst4.
    { unfold get_connection_state in *.
      destruct Hc4 as [->|(id & ->)]; simpl; now rewrite Hcw2. }
    apply start_completion_from_connecting in H4 as (-> & Hs & Hn & Hl); [|exact Hst4].
    repeat split; try assumption. congruence. }
  destruct Hcases as [[-> ->]|[[-> (e & ->)]|[[-> [-> Hn]]|(response & Hn & Hk)]]].
  - (* canceled before the request *)
    pose proof (undisturbed_interfere (stop_during_negotiate env rc) w1)
      as (Hc & _ & _ & Hl & _).
    assert (get_connection_state (interfere (stop_during_negotiate env rc) w1)
            = connecting) as Hst3.
    { unfold get_connection_state in *. now rewrite Hc, Hc1. }
    apply start_completion_from_connecting in H3 as (-> & Hs & Hn & Hl3); [|exact Hst3].
    left. repeat split; try assumption. congruence.
  - specialize (Hfail w2 e (or_introl eq_refl) eq_refl H3).
    destruct r; try contradiction. now left.
  - simpl in H3. inversion H3; subst. unfold get_connection_state in *.
    rewrite Hcw2. now repeat split.
  - apply negotiated_continuation_cases in Hk
      as [(_ & -> & ->)|[(_ & _ & Hrec)|[(_ & _ & _ & -> & ->)|(He & Hu & Hf & w5 & started & Ht & Hs)]]].
    + specialize (Hfail w2 _ (or_introl eq_refl) eq_refl H3).
      destruct r; try contradiction. now left.
    + (* redirect *)
      match type of Hrec with start_negotiate_rounds _ _ _ _ _ ?w0 = _ =>
        assert (get_connection_state w0 = connecting /\ transitions w0 = transitions w /\
                transport_calls w0 = transport_calls w /\
                m_disconnect_cts (connection w0) = m_disconnect_cts (connection w) /\
                m_transport (connection w0) = m_transport (connection w))
          as (Hst0 & Hl0 & Ht0 & Hd0 & Hm0)
          by (unfold get_connection_state in *;
              destruct (String.eqb (accessToken response) ""); simpl; rewrite ?Hcw2;
              repeat split; assumption)
      end.
      apply IH in Hrec; [|exact Hst0].
      destruct p as [[]|e|].
      * apply start_completion_cases in H3 as (-> & ->).
        destruct Hrec as (Hl & rc' & url' & config' & response' & t & Hrc & Hn' & He' & Hu'
                          & Hf' & Hid & Hm & Hd & Htce & Hcalls).
        split; [unfold transitions in *; simpl; congruence |].
        exists rc', url', config', response', t.
        simpl. repeat split; try assumption; try congruence. lia.
      * destruct Hrec as [(Hd3 & _ & Hl)|(_ & ->)].
        -- apply start_completion_from_disconnected in H3 as (-> & Hs & Hn3 & Hl3);
             [|exact Hd3].
           left. repeat split; try assumption. congruence.
        -- apply start_completion_from_connecting in H3 as (-> & Hs & Hn3 & Hl3);
             [|exact Hst0].
           left. repeat split; try assumption. congruence.
      * apply start_completion_cases in H3 as (-> & ->).
        destruct Hrec as (Hs & Hl & Hm). repeat split; congruence.
    + specialize (Hfail (with_connection (set_connection_id (connectionId response)) w2) _
                    (or_intror (ex_intro _ _ eq_refl)) eq_refl H3).
      destruct r; try contradiction. now left.
    + (* the transport *)
      apply start_transport_frame in Ht as (Tc & _ & Tl & _ & Tcalls & Tdone).
      simpl in Tc, Tl, Tcalls, Tdone.
      assert (get_connection_state w5 = connecting) as Hst5.
      { unfold get_connection_state in *. rewrite Tc. simpl. now rewrite Hcw2. }
      destruct started as [t|e|]; cbn [then_value] in Hs.
      * destruct (Tdone t eq_refl) as (-> & Htce).
        apply transport_started_outcome in Hs
          as (-> & Hs1 & Hs2 & Hs3 & Hs4 & Hs5 & Hs6 & Hs7); [|exact Hst5].
        apply start_completion_cases in H3 as (-> & ->).
        split; [unfold transitions in *; simpl in *; congruence |].
        exists rc, url, config, response. eexists.
        split; [lia |]. split; [exact Hn |]. split; [exact He |]. split; [exact Hu |].
        split; [exact Hf |]. simpl.
        split; [rewrite Hs4, Tc; reflexivity |]. split; [exact Hs2 |].
        split; [simpl; now rewrite Hcw2 |]. split; [rewrite Hs6; exact Htce |].
        rewrite Hs7, Tcalls, Htw2, Hcw2. reflexivity.
      * inversion Hs; subst.
        apply start_completion_from_connecting in H3 as (-> & Hs3 & Hn3 & Hl3);
          [|exact Hst5].
        left. repeat split; try assumption.
        unfold transitions in *. simpl in *. congruence.
      * inversion Hs; subst. simpl in H3. inversion H3; subst.
        unfold get_connection_state in *. rewrite Tc. simpl. rewrite Hcw2.
        repeat split; try assumption. unfold transitions in *; simpl in *; congruence.
Qed.

(** ** A whole [start] *)

Lemma start_rejected_unless_disconnected_aux X env w :
  get_connection_state w <> disconnected ->
  start X env w = (w, faulted (signalr_exception start_rejected_message)).
Proof.
  intros Hs. unfold start, change_state.
  destruct (decide (get_connection_state w = disconnected)); [contradiction | reflexivity].
Qed.

(** [start] on a disconnected connection: the world in which
    [start_negotiate] begins. *)
Lemma start_unfold X env w :
  get_connection_state w = disconnected ->
  exists w0,
    start X env w = start_negotiate X env (m_base_url (connection w)) 0 w0 /\
    get_connection_state w0 = connecting /\
    transitions w0 = (transitions w ++ ["disconnected -> connecting"])%list /\
    cts_heap w0 = (cts_heap w ++ [false])%list /\
    m_disconnect_cts (connection w0) = length (cts_heap w) /\
    m_message_id (connection w0) = "" /\
    m_groups_token (connection w0) = "" /\
    m_connection_id (connection w0) = "" /\
    m_base_url (connection w0) = m_base_url (connection w) /\
    m_message_received (connection w0) = m_message_received (connection w) /\
    m_disconnected (connection w0) = m_disconnected (connection w) /\
    m_transport (connection w0) = m_transport (connection w) /\
    m_signalr_client_config (connection w0) = m_signalr_client_config (connection w) /\
    negotiate_calls w0 = negotiate_calls w /\
    transport_calls w0 = transport_calls w /\
    tce_heap w0 = tce_heap w /\
    user w0 = user w.
Proof.
  intros Hs. unfold start, change_state.
  destruct (decide (get_connection_state w = disconnected)) as [_|Hd]; [|contradiction].
  cbn [negb new_cancellation_token_source]. eexists. split; [reflexivity |].
  unfold handle_connection_state_change. repeat split.
  unfold transitions. simpl. now rewrite state_changes_of_app.
Qed.



(** X9. Whatever the server answers, one [start] issues at most
    [MAX_NEGOTIATE_REDIRECTS] negotiate requests, and none when the
    connection is not disconnected. *)
Theorem negotiate_requests_are_bounded X env w w' r :
  start X env w = (w', r) ->
  exists calls,
    negotiate_calls w' = (negotiate_calls w ++ calls)%list /\
    length calls <= Z.to_nat (MAX_NEGOTIATE_REDIRECTS X) /\
    (get_connection_state w <> disconnected -> calls = []).
Proof.
  intros H. destruct (decide (get_connection_state w = disconnected)) as [Hs|Hs].
  - destruct (@start_unfold X env w Hs) as (w0 & Heq & Hrest).
    rewrite Heq in H. unfold start_negotiate in H.
    apply start_negotiate_rounds_frame in H as (_ & _ & calls & Hn & Hl).
    exists calls. split; [|split; [|contradiction]].
    + rewrite Hn. f_equal. apply Hrest.
    + replace (MAX_NEGOTIATE_REDIRECTS X - 0)%Z with (MAX_NEGOTIATE_REDIRECTS X) in Hl by lia.
      exact Hl.
  - rewrite (@start_rejected_unless_disconnected_aux X env w Hs) in H. inversion H; subst.
    exists []. rewrite app_nil_r. repeat split. simpl. lia.
Qed.

(** X10. Every [start] on a disconnected connection opens a session of
    its own: it makes exactly one new cancellation source, which becomes
    the source of the connection, and leaves every older source as it was,
    canceled or not; the message id and the groups token are empty, and
    the url and the two callbacks are those set before. *)
Theorem start_opens_a_fresh_session X env w w' r :
  get_connection_state w = disconnected ->
  start X env w = (w', r) ->
  m_disconnect_cts (connection w') = length (cts_heap w) /\
  (exists b, cts_heap w' = (cts_heap w ++ [b])%list) /\
  (forall cts, cts < length (cts_heap w) -> is_canceled cts w' = is_canceled cts w) /\
  m_message_id (connection w') = "" /\
  m_groups_token (connection w') = "" /\
  m_base_url (connection w') = m_base_url (connection w) /\
  m_message_received (connection w') = m_message_received (connection w) /\
  m_disconnected (connection w') = m_disconnected (connection w).
Proof.
  intros Hs H.
  destruct (@start_unfold X env w Hs)
    as (w0 & Heq & _ & _ & Hh0 & Hc0 & Hm0 & Hg0 & _ & Hu0 & Hr0 & Hd0 & _).
  rewrite Heq in H. unfold start_negotiate in H.
  apply start_negotiate_rounds_frame in H
    as ((S1 & S2 & S3 & S4 & S5 & S6) & Ho & _).
  assert (exists b, cts_heap w' = (cts_heap w ++ [b])%list) as (b & Hb).
  { destruct Ho as [->| ->]; rewrite Hh0.
    - now exists false.
    - exists true. rewrite Hc0.
      replace (length (cts_heap w)) with (length (cts_heap w) + 0) at 1 by lia.
      now rewrite insert_app_r. }
  repeat split; try congruence.
  - now exists b.
  - intros cts Hlt. unfold is_canceled. rewrite Hb. now rewrite lookup_app_l.
Qed.

(** ** The session invariant *)

Lemma complete_stable tce c w i c0 :
  tce_heap w !! i = Some (Some c0) ->
  tce_heap (complete tce c w) !! i = Some (Some c0).
Proof.
  intros H. unfold complete. destruct (tce_heap w !! tce) as [[?|]|] eqn:Ht; try exact H.
  simpl. destruct (decide (tce = i)) as [->|Hne]; [congruence |].
  now rewrite list_lookup_insert_ne.
Qed.

(** A step that leaves the connection and the sources alone and keeps
    every completed event keeps the session invariant. *)
Lemma session_invariant_step w w' :
  connection w' = connection w ->
  cts_heap w' = cts_heap w ->
  (forall i c0, tce_heap w !! i = Some (Some c0) -> tce_heap w' !! i = Some (Some c0)) ->
  session_invariant w -> session_invariant w'.
Proof.
  intros Hc Hh Ht (Hinv & Hv & Htag).
  unfold session_invariant, transport_invariant, get_connection_state in *.
  rewrite Hc, Hh. split; [exact Hinv | split; [exact Hv |]].
  intros t Hm. destruct (Htag t Hm) as (H1 & H2). split; [exact H1 | now apply Ht].
Qed.

Lemma tce_heap_invoke_disconnected w :
  tce_heap (fst (invoke_disconnected w)) = tce_heap w.
Proof. apply invoke_disconnected_frame. Qed.

Lemma stop_session_invariant disconnect_task w w' r :
  session_invariant w -> stop disconnect_task w = returns (w', r) -> session_invariant w'.
Proof.
  intros Hinv Hstop. pose proof Hstop as Hti.
  apply stop_invariant in Hti; [|apply Hinv].
  destruct Hinv as (_ & Hv & Htag). split; [exact Hti |].
  revert Hstop. unfold stop. rewrite shutdown_unfold. cbv zeta.
  change (get_connection_state (log info "stopping connection" w))
    with (get_connection_state w).
  change (connection (log info "stopping connection" w)) with (connection w).
  assert (forall w1 : world U,
            m_disconnect_cts (connection w1) = m_disconnect_cts (connection w) ->
            length (cts_heap w1) = length (cts_heap w) ->
            tce_heap w1 = tce_heap w ->
            m_transport (connection w1) = m_transport (connection w) \/
            m_transport (connection w1) = None ->
            m_disconnect_cts (connection w1) < length (cts_heap w1) /\
            forall t, m_transport (connection w1) = Some t ->
              disconnect_cts t = m_disconnect_cts (connection w1) /\
              tce_heap w1 !! connect_request_tce t = Some (Some set_value)) as Hkeep.
  { intros w1 H1 H2 H3 H4. rewrite H1, H2, H3. split; [exact Hv |].
    intros t Ht. destruct H4 as [H4|H4]; [|congruence]. apply Htag. congruence. }
  assert (forall w1 w2 r2,
            stop_continuation w1 = (w2, r2) ->
            m_disconnect_cts (connection w2) = m_disconnect_cts (connection w1) /\
            cts_heap w2 = cts_heap w1 /\ tce_heap w2 = tce_heap w1 /\
            (m_transport (connection w2) = m_transport (connection w1) \/
             m_transport (connection w2) = None)) as Hcont.
  { intros w1 w2 r2. rewrite stop_continuation_unfold. cbv zeta. intros [= <- _].
    match goal with |- context [invoke_disconnected ?w0] =>
      destruct (invoke_disconnected_frame w0) as (-> & -> & -> & _) end.
    destruct (decide (get_connection_state w1 = disconnecting)); simpl; auto. }
  destruct (get_connection_state w) eqn:Hs.
  1, 2: destruct (m_start_completed_event (connection w)); [|discriminate];
    destruct (m_transport (connection w)) as [t0|] eqn:Hm0; [|discriminate];
    intros [= H]; destruct disconnect_task as [[]|e|]; cbn [then_value] in H;
    [apply Hcont in H as (A & B & C & D) | inversion H; subst | inversion H; subst];
    apply Hkeep; rewrite ?A, ?B, ?C; unfold change_state_to; simpl;
    try (match goal with |- context [decide ?P] => destruct (decide P) end);
    simpl; rewrite ?length_insert; auto;
    destruct D as [D|D]; rewrite D; unfold change_state_to; simpl;
    try (match goal with |- context [decide ?P] => destruct (decide P) end); auto.
  - intros [= H]. cbn [then_value canceled] in H. inversion H; subst.
    apply Hkeep; auto.
  - intros [= H]. cbn [then_value] in H. apply Hcont in H as (A & B & C & D).
    apply Hkeep; rewrite ?A, ?B, ?C; auto.
Qed.

Lemma shutdown_session_invariant disconnect_task w w' r :
  session_invariant w -> shutdown disconnect_task w = returns (w', r) ->
  session_invariant w'.
Proof.
  intros Hinv Hsh. pose proof Hsh as Hti.
  apply shutdown_invariant in Hti; [|apply Hinv].
  destruct Hinv as (_ & Hv & Htag). split; [exact Hti |].
  revert Hsh. rewrite shutdown_unfold. cbv zeta.
  destruct (get_connection_state w) eqn:Hs.
  1, 2: destruct (m_start_completed_event (connection w)); [|discriminate];
    destruct (m_transport (connection w)) as [t0|] eqn:Hm0; [|discriminate];
    intros [= <- _]; unfold change_state_to; simpl;
    match goal with |- context [decide ?P] => destruct (decide P) end; simpl;
    rewrite length_insert; (split; [exact Hv |]);
    intros t Ht; apply Htag; congruence.
  - intros [= <- _]. simpl. split; [exact Hv | exact Htag].
  - intros [= <- _]. simpl. split; [exact Hv | exact Htag].
Qed.

Lemma start_session_invariant X env w :
  session_invariant w -> session_invariant (fst (start X env w)).
Proof.
  intros Hinv. pose proof Hinv as (Hti & Hv & Htag).
  destruct (decide (get_connection_state w = disconnected)) as [Hs|Hs].
  2: { now rewrite (@start_rejected_unless_disconnected_aux X env w Hs). }
  split.
  { apply (@perform_invariant U (op_start X env) w); [exact Hti | reflexivity]. }
  destruct (@start_unfold X env w Hs)
    as (w0 & Heq & Hs0 & _ & Hh0 & Hc0 & _ & _ & _ & _ & _ & _ & Hm0 & _).
  rewrite Heq. unfold start_negotiate.
  match goal with |- context [start_negotiate_rounds ?f X env ?u ?rc w0] =>
    destruct (start_negotiate_rounds f X env u rc w0) as [w' r] eqn:H end.
  simpl. pose proof H as Hframe.
  apply start_negotiate_rounds_frame in Hframe as ((_ & _ & _ & Hcts & _) & Ho & _).
  apply start_negotiate_rounds_outcome in H; [|exact Hs0].
  assert (length (cts_heap w') = S (length (cts_heap w))) as Hlen.
  { destruct Ho as [->| ->]; rewrite ?length_insert, Hh0, length_app; simpl; lia. }
  split; [rewrite Hcts, Hc0, Hlen; lia |].
  assert (m_transport (connection w0) = None) as Hnone.
  { rewrite Hm0. apply Hti, Hs. }
  intros t Ht. destruct r as [[]|e|].
  - destruct H as (_ & rc' & url' & config' & response' & t' & _ & _ & _ & _ & _ & _ & Hm
                   & Hd & Htce & _).
    assert (t' = t) as -> by congruence. split; [congruence | exact Htce].
  - destruct H as [(_ & Hn & _)|(_ & ->)]; congruence.
  - destruct H as (_ & _ & Hm). congruence.
Qed.

Lemma perform_session_invariant (op : operation U) w w' :
  session_invariant w -> perform op w = Some w' -> session_invariant w'.
Proof.
  intros Hinv. destruct op; simpl.
  - intros [= <-]. now apply start_session_invariant.
  - destruct (stop disconnect_task w) as [[w1 r]| |] eqn:H; try discriminate.
    intros [= <-]. eapply stop_session_invariant; eassumption.
  - destruct (shutdown disconnect_task w) as [[w1 r]| |] eqn:H; try discriminate.
    intros [= <-]. eapply shutdown_session_invariant; eassumption.
  - intros [= <-]. eapply session_invariant_step; [| | |exact Hinv].
    + apply send_connection.
    + apply send_cts_heap.
    + intros i c0 Hi. unfold send.
      destruct (m_transport (connection w)); [|exact Hi].
      destruct (decide (get_connection_state w = connected)); [|exact Hi].
      destruct send_task as [[]|e'|]; exact Hi.
  - intros [= <-]. unfold set_message_received.
    destruct (ensure_disconnected _ w); simpl; [exact Hinv |].
    destruct Hinv as (A & B & C). repeat split; try assumption; apply C; assumption.
  - intros [= <-]. unfold set_disconnected.
    destruct (ensure_disconnected _ w); simpl; [exact Hinv |].
    destruct Hinv as (A & B & C). repeat split; try assumption; apply C; assumption.
  - intros [= <-]. unfold set_client_config.
    destruct (ensure_disconnected _ w); simpl; [exact Hinv |].
    destruct Hinv as (A & B & C). repeat split; try assumption; apply C; assumption.
  - intros [= <-]. eapply session_invariant_step; [| | |exact Hinv].
    + apply connection_process_response_callback.
    + apply cts_heap_process_response_callback.
    + intros i c0. now rewrite tce_heap_process_response_callback.
  - intros [= <-]. eapply session_invariant_step; [| | |exact Hinv].
    + apply connection_error_callback.
    + apply cts_heap_error_callback.
    + intros i c0 Hi. unfold error_callback, tce_set_exception.
      destruct (is_canceled (disconnect_cts t) w); [exact Hi | now apply complete_stable].
  - intros [= <-]. eapply session_invariant_step; [| | |exact Hinv].
    + apply connection_connect_task_continuation.
    + apply cts_heap_connect_task_continuation.
    + intros i c0 Hi. unfold connect_task_continuation, tce_set, tce_set_exception.
      destruct connect_task as [[]|e'|]; [now apply complete_stable | | exact Hi].
      apply complete_stable. exact Hi.
  - intros [= <-]. eapply session_invariant_step; [| | |exact Hinv].
    + apply connection_connect_timeout_task.
    + apply cts_heap_connect_timeout_task.
    + intros i c0 Hi. unfold connect_timeout_task, tce_set, tce_set_exception.
      destruct (is_canceled (disconnect_cts t) w); now apply complete_stable.
Qed.

Lemma perform_all_session_invariant (ops : list (operation U)) w w' :
  session_invariant w -> perform_all ops w = Some w' -> session_invariant w'.
Proof.
  revert w. induction ops as [|op rest IH]; intros w Hinv; simpl.
  - now intros [= <-].
  - destruct (perform op w) as [w1|] eqn:H; [|discriminate].
    apply IH. eapply perform_session_invariant; eassumption.
Qed.

Lemma create_session_invariant url (u0 : U) : session_invariant (create url u0).
Proof.
  split; [intros _; reflexivity |]. split; [simpl; lia |]. intros t. discriminate.
Qed.

(** X11. On every connection that operations have brought about from a
    constructed one, the cancellation source of the connection exists,
    and a transport that is attached is one whose callbacks captured that
    very source and whose connect was completed with success. *)
Theorem session_invariant_holds url (u0 : U) ops w :
  perform_all ops (create url u0) = Some w ->
  m_disconnect_cts (connection w) < length (cts_heap w) /\
  forall t,
    m_transport (connection w) = Some t ->
    disconnect_cts t = m_disconnect_cts (connection w) /\
    create_task (connect_request_tce t) w = completed tt.
Proof.
  intros H. apply perform_all_session_invariant in H; [|apply create_session_invariant].
  destruct H as (_ & Hv & Htag). split; [exact Hv |].
  intros t Ht. destruct (Htag t Ht) as (H1 & H2). split; [exact H1 |].
  unfold create_task. now rewrite H2.
Qed.

(** X12. After a [stop] on a connected connection has returned, be its
    result a success or the failure of [disconnect], every message that
    the transport of that session still delivers is logged and dropped,
    whatever is done with the connection afterwards: the consumer is not
    called. *)
Theorem messages_after_stop_are_dropped url (u0 : U) ops w t disconnect_task w' r
    later w'' response :
  perform_all ops (create url u0) = Some w ->
  get_connection_state w = connected ->
  m_transport (connection w) = Some t ->
  stop disconnect_task w = returns (w', r) ->
  perform_all later w' = Some w'' ->
  process_response_callback (disconnect_cts t) response w'' =
    (log info
       ("ignoring stray message received after connection was restarted. message: "
          +:+ response) w'', None) /\
  user (fst (process_response_callback (disconnect_cts t) response w'')) = user w''.
Proof.
  intros Hreach Hs Ht Hstop Hlater.
  apply perform_all_session_invariant in Hreach; [|apply create_session_invariant].
  destruct Hreach as (_ & Hv & Htag). destruct (Htag t Ht) as (Hd & _).
  assert (is_canceled (disconnect_cts t) w' = true) as Hc.
  { revert Hstop. unfold stop.
    destruct (shutdown disconnect_task (log info "stopping connection" w))
      as [[w1 r1]| |] eqn:Hsh; try discriminate.
    assert (is_canceled (disconnect_cts t) w1 = true) as Hc1.
    { revert Hsh. rewrite shutdown_unfold. cbv zeta.
      change (get_connection_state (log info "stopping connection" w))
        with (get_connection_state w).
      change (connection (log info "stopping connection" w)) with (connection w).
      rewrite Hs, Ht.
      destruct (m_start_completed_event (connection w)); [|discriminate].
      intros [= <- _]. unfold is_canceled, change_state_to. simpl.
      match goal with |- context [decide ?P] => destruct (decide P) end; simpl;
        rewrite Hd, list_lookup_insert_eq by exact Hv; reflexivity. }
    intros [= H]. destruct r1 as [[]|e|]; cbn [then_value] in H.
    - apply keeps_canceled_stop_continuation in H. now apply H.
    - now inversion H; subst.
    - now inversion H; subst. }
  apply perform_all_keeps_canceled in Hlater. apply Hlater in Hc.
  unfold process_response_callback. rewrite Hc. split; reflexivity.
Qed.

(** X13. An error that the attached transport reports once the connection
    has started is ignored altogether while the session is not canceled:
    the world is exactly as before, so the state stays what it was,
    nothing is logged and the consumer is not told. *)
Theorem late_transport_error_is_ignored url (u0 : U) ops w t e :
  perform_all ops (create url u0) = Some w ->
  m_transport (connection w) = Some t ->
  is_canceled (disconnect_cts t) w = false ->
  error_callback (connect_request_tce t) (disconnect_cts t) e w = w.
Proof.
  intros Hreach Ht Hc.
  apply perform_all_session_invariant in Hreach; [|apply create_session_invariant].
  destruct Hreach as (_ & _ & Htag). destruct (Htag t Ht) as (_ & Htce).
  unfold error_callback, tce_set_exception. rewrite Hc.
  eapply complete_completed, Htce.
Qed.

End Further.

(** ** The further properties at sample inputs *)

Lemma setters_require_disconnected_witness :
  set_client_config {| http_headers := ∅ |} (sample.in_state connected) =
    (sample.in_state connected,
     Some (signalr_exception
       ("cannot set client config when the connection is not in the disconnected state. "
          +:+ "current connection state: " +:+ "connected"))).
Proof.
  apply (proj1 (@setters_require_disconnected nat sample.throwing_message_received
                  (fun u => (u, None)) {| http_headers := ∅ |} (sample.in_state connected))).
  simpl. discriminate.
Defined.

Lemma negotiation_error_comes_first_witness :
  exists w',
    start_negotiate sample.X sample.env_server_error "http://host/hub" 0 sample.fresh =
      (w', faulted (signalr_exception "bad request")) /\
    transport_calls w' = [] /\
    get_connection_state w' = disconnected.
Proof.
  assert ((0 < MAX_NEGOTIATE_REDIRECTS sample.X)%Z) as Hlt by reflexivity.
  assert (is_canceled (m_disconnect_cts (connection sample.fresh)) sample.fresh = false)
    as Hc by reflexivity.
  assert (stop_before_negotiate sample.env_server_error 0 = false) as Hb by reflexivity.
  assert (stop_during_negotiate sample.env_server_error 0 = false) as Hd by reflexivity.
  assert (negotiate sample.env_server_error 0 "http://host/hub"
            (m_signalr_client_config (connection sample.fresh))
          = completed sample.error_response) as Hn by reflexivity.
  assert (error sample.error_response <> "") as He by discriminate.
  destruct (@negotiation_error_comes_first nat sample.X sample.env_server_error
              "http://host/hub" 0%Z sample.fresh Hlt Hc Hb Hd
              (signalr_exception "bad request")
              (or_intror (ex_intro _ sample.error_response
                 (conj Hn (conj He eq_refl)))))
    as (w' & H1 & _ & H2 & _ & _ & _ & H3 & _).
  exists w'. split; [exact H1 | split; [exact H2 | exact H3]].
Defined.

Lemma no_websockets_no_transport_witness :
  exists w',
    start_negotiate sample.X sample.env_no_websockets "http://host/hub" 0 sample.fresh =
      (w', faulted (signalr_exception
         "The server does not support WebSockets which is currently the only transport supported by this client.")) /\
    transport_calls w' = [] /\
    get_connection_id w' = "abc".
Proof.
  assert ((0 < MAX_NEGOTIATE_REDIRECTS sample.X)%Z) as Hlt by reflexivity.
  assert (is_canceled (m_disconnect_cts (connection sample.fresh)) sample.fresh = false)
    as Hc by reflexivity.
  assert (stop_before_negotiate sample.env_no_websockets 0 = false) as Hb by reflexivity.
  assert (stop_during_negotiate sample.env_no_websockets 0 = false) as Hd by reflexivity.
  assert (negotiate sample.env_no_websockets 0 "http://host/hub"
            (m_signalr_client_config (connection sample.fresh))
          = completed sample.long_polling_response) as Hn by reflexivity.
  destruct (@no_websockets_no_transport nat sample.X sample.env_no_websockets
              "http://host/hub" 0%Z sample.fresh sample.long_polling_response
              Hlt Hc Hb Hd Hn eq_refl eq_refl eq_refl)
    as (w' & H1 & H2 & _ & _ & _ & _ & _ & H3).
  exists w'. split; [exact H1 | split; [exact H2 | exact H3]].
Defined.

Lemma stop_when_connected_witness :
  exists w1,
    shutdown (completed tt) (log info "stopping connection" sample.started) =
      returns (w1, completed tt) /\
    get_connection_state w1 = disconnecting /\
    m_transport (connection w1) = Some sample.old_transport.
Proof.
  assert (get_connection_state sample.started = connected)
    as Hs by (vm_compute; reflexivity).
  assert (m_start_completed_event (connection sample.started) = true)
    as Hl by (vm_compute; reflexivity).
  assert (m_transport (connection sample.started) = Some sample.old_transport)
    as Ht by (vm_compute; reflexivity).
  destruct (@stop_when_connected nat (completed tt) sample.started sample.old_transport
              Hs Hl Ht) as (w1 & H1 & H2 & H3 & _).
  exists w1. split; [exact H1 | split; [exact H2 | exact H3]].
Defined.



Lemma negotiate_requests_are_bounded_witness :
  exists calls,
    negotiate_calls (fst (start sample.X sample.env_redirect_loop sample.fresh)) =
      (negotiate_calls sample.fresh ++ calls)%list /\
    length calls <= Z.to_nat (MAX_NEGOTIATE_REDIRECTS sample.X) /\
    (get_connection_state sample.fresh <> disconnected -> calls = []).
Proof.
  assert (start sample.X sample.env_redirect_loop sample.fresh =
            (fst (start sample.X sample.env_redirect_loop sample.fresh),
             faulted (signalr_exception "Negotiate redirection limit exceeded.")))
    as Hrun by (vm_compute; reflexivity).
  exact (@negotiate_requests_are_bounded nat sample.X sample.env_redirect_loop sample.fresh
           _ _ Hrun).
Defined.

Lemma start_opens_a_fresh_session_witness :
  m_disconnect_cts (connection (fst (start sample.X sample.env_connects sample.stopped))) =
    length (cts_heap sample.stopped).
Proof.
  assert (get_connection_state sample.stopped = disconnected)
    as Hs by (vm_compute; reflexivity).
  assert (start sample.X sample.env_connects sample.stopped =
            (fst (start sample.X sample.env_connects sample.stopped), completed tt))
    as Hrun by (vm_compute; reflexivity).
  exact (proj1 (@start_opens_a_fresh_session nat sample.X sample.env_connects sample.stopped
                  _ _ Hs Hrun)).
Defined.

Lemma session_invariant_holds_witness :
  m_disconnect_cts (connection sample.restarted) < length (cts_heap sample.restarted).
Proof.
  assert (perform_all sample.session_and_restart (create "http://host/hub" 0%nat)
          = Some sample.restarted)
    as Hrun by (vm_compute; reflexivity).
  exact (proj1 (@session_invariant_holds nat "http://host/hub" 0%nat
                  sample.session_and_restart sample.restarted Hrun)).
Defined.

Lemma messages_after_stop_are_dropped_witness :
  process_response_callback 1 "too late" sample.restarted =
    (log info
       "ignoring stray message received after connection was restarted. message: too late"
       sample.restarted, None).
Proof.
  assert (perform_all [op_start sample.X sample.env_connects] (create "http://host/hub" 0%nat)
          = Some sample.started)
    as Hreach by (vm_compute; reflexivity).
  assert (get_connection_state sample.started = connected)
    as Hs by (vm_compute; reflexivity).
  assert (m_transport (connection sample.started) = Some sample.old_transport)
    as Ht by (vm_compute; reflexivity).
  assert (stop (completed tt) sample.started = returns (sample.stopped, completed tt))
    as Hstop by (vm_compute; reflexivity).
  assert (perform_all [op_start sample.X sample.env_connects] sample.stopped
          = Some sample.restarted)
    as Hlater by (vm_compute; reflexivity).
  exact (proj1 (@messages_after_stop_are_dropped nat "http://host/hub" 0%nat
                  [op_start sample.X sample.env_connects] sample.started
                  sample.old_transport (completed tt) sample.stopped (completed tt)
                  [op_start sample.X sample.env_connects] sample.restarted "too late"
                  Hreach Hs Ht Hstop Hlater)).
Defined.

Lemma late_transport_error_is_ignored_witness :
  error_callback 0 1 (std_exception "connection reset") sample.started = sample.started.
Proof.
  assert (perform_all [op_start sample.X sample.env_connects] (create "http://host/hub" 0%nat)
          = Some sample.started)
    as Hreach by (vm_compute; reflexivity).
  assert (m_transport (connection sample.started) = Some sample.old_transport)
    as Ht by (vm_compute; reflexivity).
  assert (is_canceled (disconnect_cts sample.old_transport) sample.started = false)
    as Hc by (vm_compute; reflexivity).
  exact (@late_transport_error_is_ignored nat "http://host/hub" 0%nat
           [op_start sample.X sample.env_connects] sample.started sample.old_transport
           (std_exception "connection reset") Hreach Ht Hc).
Defined.

